(** * Sawlyer/SIR: FloPoCo FixIIR metric extraction and the write-enable truth table

    A shallow embedding of

    - [src/flopoco_fixiir_metrics.py]: [_resolve_flopoco_exe],
      [run_fixiir_and_parse_metrics] and the three compiled patterns
      [_RE_H], [_RE_HEPS], [_RE_LSBEXT];
    - [src/table de verite/table_verite.py]: [compteur], [bit3], [sortie].

    Conventions.

    - A Python [str] is a list of Unicode code points ([text]); a [bytes]
      object is a [list byte].
    - Python's [re] is a backtracking matcher; [rmatch] below is such a
      matcher in continuation-passing style, and the three patterns are
      written as syntax trees that follow the pattern strings token by token.
      [\d] and [\s] are the Unicode classes [re] uses for [str] patterns.
    - [subprocess.run] and [shutil.which] are the outside world: they are
      fields of a [world] record.  The spawn and every [search] are
      recorded in a trace, next to the value or exception of the call.
    - [float] is the interpreter's binary64 type.  It stays abstract
      (Section variables [py_float], [float_of_str], [float_repr]): no claim
      depends on how a decimal text is rounded.
    - CPython limits the number of decimal digits that [int(s)] and [str(n)]
      convert: beyond [sys.get_int_max_str_digits()] (4300 unless the
      interpreter is started or set otherwise, 0 for no limit) they raise
      [ValueError].  The setting is a field of the [world] record too, and
      both conversions test it.
    - Memory is not modelled. *)

From Stdlib Require Import ZArith NArith List Bool Lia.
From Stdlib.Strings Require Import String Ascii Byte.
From Stdlib Require Import DecimalString DecimalPos.
From Stdlib Require DecimalN DecimalFacts.
Import ListNotations.

Set Implicit Arguments.

(** ** Text *)

Definition codepoint := N.
Definition text := list codepoint.
Definition bytes := list byte.

(** An ASCII literal of the source as a [text]. *)
Definition lit (s : string) : text :=
  map N_of_ascii (list_ascii_of_string s).

Definition NL : codepoint := 10%N.

(** [str(n)] for a Python int. *)
Definition str_of_int (n : Z) : text :=
  lit (NilZero.string_of_int (Z.to_int n)).

(** * The truth table ([table_verite.py]) *)

Module TableVerite.
Open Scope Z_scope.

(** [reversed(range(n))] for a natural [n]: [n-1, ..., 0]. *)
Definition reversed_range (n : nat) : list Z :=
  rev (map Z.of_nat (seq 0 n)).

(** [range(n)]. *)
Definition range (n : nat) : list Z := map Z.of_nat (seq 0 n).

(** [[(n >> i) & 1 for i in reversed(range(8))]] *)
Definition compteur (n : Z) : list Z :=
  map (fun i => Z.land (Z.shiftr n i) 1) (reversed_range 8).

(** [[(n >> i) & 1 for i in reversed(range(3))]] *)
Definition bit3 (n : Z) : list Z :=
  map (fun i => Z.land (Z.shiftr n i) 1) (reversed_range 3).

(** [int(i == k)] *)
Definition int_eq (i k : Z) : Z := if i =? k then 1 else 0.

(** The [while k >= 0] loop of [sortie].  The loop variable [k] runs over
    7, 6, ..., 0; the argument [k1] is [k + 1], so that [k >= 0] is
    [k1 = S k] and the exit of the loop is [k1 = 0]. *)
Fixpoint sortie_while (n : Z) (k1 : nat) : list Z :=
  match k1 with
  | O => repeat 0 8 ++ repeat 0 3
  | S k' =>
      let k := Z.of_nat k' in
      if nth k' (compteur n) 0 =? 0
      then map (fun i => int_eq i k) (range 8) ++ bit3 (7 - k)
      else sortie_while n k'
  end.

Definition sortie (n : Z) : list Z := sortie_while n 8.

End TableVerite.

(** * Python runtime pieces used by [flopoco_fixiir_metrics.py] *)

(** ** [bytes.decode] for UTF-8 with [errors] set to [replace]

    CPython's decoder: a well-formed sequence yields its scalar value; an
    ill-formed one yields one U+FFFD for its maximal well-formed prefix (one
    byte for a bad lead byte, the bytes read so far for a bad continuation
    byte, the whole rest for a truncated sequence at the end of the data) and
    decoding resumes right after that prefix. *)

Module Utf8.
Open Scope N_scope.

Definition REPLACEMENT : codepoint := 0xFFFD.

(** [IS_CONTINUATION_BYTE] *)
Definition is_cont (b : N) : bool := (0x80 <=? b) && (b <? 0xC0).

(** Second byte of a three-byte sequence led by [b0]: a continuation byte,
    not below [0xA0] after [0xE0] (overlong forms) and below [0xA0] after
    [0xED] (surrogates). *)
Definition second_of_3 (b0 b1 : N) : bool :=
  is_cont b1 &&
  negb (if b1 <? 0xA0 then b0 =? 0xE0 else b0 =? 0xED).

(** Second byte of a four-byte sequence led by [b0]: a continuation byte,
    not below [0x90] after [0xF0] (overlong forms) and below [0x90] after
    [0xF4] (beyond U+10FFFF). *)
Definition second_of_4 (b0 b1 : N) : bool :=
  is_cont b1 &&
  negb (if b1 <? 0x90 then b0 =? 0xF0 else b0 =? 0xF4).

Definition cp2 (b0 b1 : N) : codepoint :=
  (b0 - 0xC0) * 64 + (b1 - 0x80).
Definition cp3 (b0 b1 b2 : N) : codepoint :=
  (b0 - 0xE0) * 4096 + (b1 - 0x80) * 64 + (b2 - 0x80).
Definition cp4 (b0 b1 b2 b3 : N) : codepoint :=
  (b0 - 0xF0) * 262144 + (b1 - 0x80) * 4096 + (b2 - 0x80) * 64 + (b3 - 0x80).

Fixpoint decode_N (bs : list N) : text :=
  match bs with
  | [] => []
  | b0 :: r0 =>
      if b0 <? 0x80 then b0 :: decode_N r0
      else if b0 <? 0xC2 then REPLACEMENT :: decode_N r0
      else if b0 <? 0xE0 then
        match r0 with
        | [] => [REPLACEMENT]
        | b1 :: r1 =>
            if is_cont b1 then cp2 b0 b1 :: decode_N r1
            else REPLACEMENT :: decode_N r0
        end
      else if b0 <? 0xF0 then
        match r0 with
        | [] => [REPLACEMENT]
        | b1 :: r1 =>
            if second_of_3 b0 b1 then
              match r1 with
              | [] => [REPLACEMENT]
              | b2 :: r2 =>
                  if is_cont b2 then cp3 b0 b1 b2 :: decode_N r2
                  else REPLACEMENT :: decode_N r1
              end
            else REPLACEMENT :: decode_N r0
        end
      else if b0 <? 0xF5 then
        match r0 with
        | [] => [REPLACEMENT]
        | b1 :: r1 =>
            if second_of_4 b0 b1 then
              match r1 with
              | [] => [REPLACEMENT]
              | b2 :: r2 =>
                  if is_cont b2 then
                    match r2 with
                    | [] => [REPLACEMENT]
                    | b3 :: r3 =>
                        if is_cont b3 then cp4 b0 b1 b2 b3 :: decode_N r3
                        else REPLACEMENT :: decode_N r2
                    end
                  else REPLACEMENT :: decode_N r1
              end
            else REPLACEMENT :: decode_N r0
        end
      else REPLACEMENT :: decode_N r0
  end.

(** [b.decode] for UTF-8 with replacement of ill-formed sequences. *)
Definition decode_replace (b : bytes) : text :=
  decode_N (map Byte.to_N b).

(** [str.encode] to UTF-8 of one scalar value; used only to state that
    [decode_replace] inverts it. *)
Definition encode_cp (c : codepoint) : list N :=
  if c <? 0x80 then [c]
  else if c <? 0x800 then [0xC0 + c / 64; 0x80 + c mod 64]
  else if c <? 0x10000 then
    [0xE0 + c / 4096; 0x80 + (c / 64) mod 64; 0x80 + c mod 64]
  else
    [0xF0 + c / 262144; 0x80 + (c / 4096) mod 64; 0x80 + (c / 64) mod 64;
     0x80 + c mod 64].

Definition encode_N (t : text) : list N := flat_map encode_cp t.

(** A Unicode scalar value: below [0x110000] and not a surrogate. *)
Definition is_scalar (c : codepoint) : bool :=
  (c <? 0xD800) || ((0xDFFF <? c) && (c <? 0x110000)).






End Utf8.

(** ** Character classes of [re] on [str] patterns *)

Module Unicode.
Open Scope N_scope.

(** [\s]: the code points for which [str.isspace] holds. *)
Definition is_space (c : codepoint) : bool :=
  ((0x09 <=? c) && (c <=? 0x0D)) || ((0x1C <=? c) && (c <=? 0x20)) ||
  (c =? 0x85) || (c =? 0xA0) || (c =? 0x1680) ||
  ((0x2000 <=? c) && (c <=? 0x200A)) || (c =? 0x2028) || (c =? 0x2029) ||
  (c =? 0x202F) || (c =? 0x205F) || (c =? 0x3000).

(** First code point of every run [0..9] of category Nd (Unicode 14, the
    table of CPython 3.11): each run is ten consecutive code points in
    increasing digit value. *)
Definition decimal_runs : list codepoint :=
  [48; 1632; 1776; 1984; 2406; 2534; 2662; 2790; 2918; 3046; 3174; 3302;
   3430; 3558; 3664; 3792; 3872; 4160; 4240; 6112; 6160; 6470; 6608; 6784;
   6800; 6992; 7088; 7232; 7248; 42528; 43216; 43264; 43472; 43504; 43600;
   44016; 65296; 66720; 68912; 69734; 69872; 69942; 70096; 70384; 70736;
   70864; 71248; 71360; 71472; 71904; 72016; 72784; 73040; 73120; 92768;
   92864; 93008; 120782; 120792; 120802; 120812; 120822; 123200; 123632;
   125264; 130032].

(** [unicodedata.decimal]: the digit value of a code point of category Nd. *)
Definition decimal (c : codepoint) : option N :=
  match find (fun s => (s <=? c) && (c <? s + 10)) decimal_runs with
  | Some s => Some (c - s)
  | None => None
  end.

(** [\d] *)
Definition is_digit (c : codepoint) : bool :=
  match decimal c with Some _ => true | None => false end.

End Unicode.

(** ** [int(s)] on a sign and decimal digits

    [int] accepts more (surrounding blanks, underscores); only texts of the
    shape [[+-]?\d+] reach it here, every other text is rejected. *)

Module PyInt.
Open Scope Z_scope.

Fixpoint digits_value (acc : Z) (t : text) : option Z :=
  match t with
  | [] => Some acc
  | c :: t' =>
      match Unicode.decimal c with
      | Some d => digits_value (10 * acc + Z.of_N d) t'
      | None => None
      end
  end.

Definition unsigned_value (t : text) : option Z :=
  match t with
  | [] => None
  | _ :: _ => digits_value 0 t
  end.

Definition int_of_str (t : text) : option Z :=
  match t with
  | c :: t' =>
      if N.eqb c 45 (* - *) then option_map Z.opp (unsigned_value t')
      else if N.eqb c 43 (* + *) then unsigned_value t'
      else unsigned_value t
  | [] => None
  end.

(** *** The limit on the number of digits

    [int(s)] and [str(n)] count the decimal digits they are to convert and
    raise [ValueError] when there are more than the interpreter allows. *)

(** [sys.int_info.str_digits_check_threshold]: a conversion of no more
    digits than this is never refused. *)
Definition str_digits_check_threshold : nat := 640.

(** [sys.int_info.default_max_str_digits] *)
Definition default_max_str_digits : nat := 4300.

(** The test both conversions make on a number of [digits], where
    [max_str_digits] is [sys.get_int_max_str_digits()]: more digits than the
    threshold, a limit that is set (not 0), and more digits than the
    limit. *)
Definition exceeds_limit (max_str_digits digits : nat) : bool :=
  (str_digits_check_threshold <? digits)%nat
  && (0 <? max_str_digits)%nat
  && (max_str_digits <? digits)%nat.

(** The digits of a text of the shape [[+-]?\d+]: what follows the sign.
    These are the digits [int(s)] counts, leading zeros included. *)
Definition digits_of (t : text) : text :=
  match t with
  | c :: t' => if N.eqb c 45 || N.eqb c 43 then t' else t
  | [] => []
  end.

(** The number of decimal digits of an integer: the digits of [str(n)],
    which [str(n)] and the f-string of [n] count. *)
Definition int_digits (n : Z) : nat :=
  List.length (digits_of (str_of_int n)).

End PyInt.

(** ** [re]: a backtracking matcher

    The constructs the three patterns use.  [Star p] is [c*] for a one-character
    class [c] (the only repetitions in the patterns are over [\d] and [\s]);
    [c+] is [c] followed by [c*]. *)

Module Re.

Inductive regex : Type :=
| Lit (l : text)                  (* literal characters *)
| Cls (p : codepoint -> bool)     (* one character of a class *)
| Seq (r1 r2 : regex)             (* r1 r2 *)
| Alt (r1 r2 : regex)             (* r1|r2, left first *)
| Opt (r : regex)                 (* r?, greedy *)
| Star (p : codepoint -> bool).   (* c*, greedy *)

Definition Plus (p : codepoint -> bool) : regex := Seq (Cls p) (Star p).

(** [strip l s]: the rest of [s] after the literal [l], if [s] starts
    with it. *)
Fixpoint strip (l s : text) : option text :=
  match l, s with
  | [], _ => Some s
  | a :: l', b :: s' => if N.eqb a b then strip l' s' else None
  | _ :: _, [] => None
  end.

Section Matcher.
Variable A : Type.

(** Greedy repetition: take one more character of the class while that
    leads to a match, give it back otherwise. *)
Fixpoint star (p : codepoint -> bool) (s : text) (k : text -> option A)
  : option A :=
  match s with
  | c :: s' =>
      if p c then
        match star p s' k with
        | Some x => Some x
        | None => k s
        end
      else k s
  | [] => k s
  end.

(** [rmatch r s k]: match [r] at the start of [s] and hand the rest to the
    continuation [k]; when [k] fails, backtrack into [r]. *)
Fixpoint rmatch (r : regex) (s : text) (k : text -> option A) : option A :=
  match r with
  | Lit l => match strip l s with Some s' => k s' | None => None end
  | Cls p =>
      match s with
      | c :: s' => if p c then k s' else None
      | [] => None
      end
  | Seq r1 r2 => rmatch r1 s (fun s' => rmatch r2 s' k)
  | Alt r1 r2 =>
      match rmatch r1 s k with
      | Some x => Some x
      | None => rmatch r2 s k
      end
  | Opt r1 =>
      match rmatch r1 s k with
      | Some x => Some x
      | None => k s
      end
  | Star p => star p s k
  end.
End Matcher.

(** A compiled pattern of the shape [prefix(group1)]: all three patterns
    of the module end with their only capturing group. *)
Record pattern : Type := mkPattern { p_prefix : regex; p_group1 : regex }.

(** [pattern.match(s)]: a match anchored at the start of [s]; the result is
    [m.group(1)]. *)
Definition match_at (p : pattern) (s : text) : option text :=
  rmatch (p_prefix p) s (fun s1 =>
    rmatch (p_group1 p) s1 (fun s2 =>
      Some (firstn (List.length s1 - List.length s2) s1))).

(** [pattern.search(s)]: the match at the leftmost position that has one;
    the result is [m.group(1)]. *)
Fixpoint search (p : pattern) (s : text) : option text :=
  match match_at p s with
  | Some g => Some g
  | None =>
      match s with
      | [] => None
      | _ :: s' => search p s'
      end
  end.

(** The language of a regex: the texts it can consume, whatever the
    order in which the matcher tries them. *)
Fixpoint lang (r : regex) (w : text) : Prop :=
  match r with
  | Lit l => w = l
  | Cls p => exists c, w = [c] /\ p c = true
  | Seq r1 r2 => exists w1 w2, w = w1 ++ w2 /\ lang r1 w1 /\ lang r2 w2
  | Alt r1 r2 => lang r1 w \/ lang r2 w
  | Opt r1 => w = [] \/ lang r1 w
  | Star p => forallb p w = true
  end.

(** [w] is an occurrence of the pattern with [g] as its group 1. *)
Definition occurrence (p : pattern) (w g : text) : Prop :=
  exists w1, w = w1 ++ g /\ lang (p_prefix p) w1 /\ lang (p_group1 p) g.

(** The pattern has an occurrence that starts at position [i] of [s]. *)
Definition occurs_at (p : pattern) (s : text) (i : nat) : Prop :=
  exists w g rest, skipn i s = w ++ rest /\ occurrence p w g.

(** [i] is the leftmost position of [s] where the pattern has an
    occurrence. *)
Definition first_occurrence (p : pattern) (s : text) (i : nat) : Prop :=
  occurs_at p s i /\ forall j, j < i -> ~ occurs_at p s j.

(** The text [l] occurs in [s]. *)
Definition contains (l s : text) : Prop :=
  exists pre post, s = pre ++ l ++ post.

End Re.

(** * [flopoco_fixiir_metrics.py] *)

Import Re.

Definition chr_in (l : text) (c : codepoint) : bool :=
  existsb (N.eqb c) l.

(** [[+-]] *)
Definition sign_class : codepoint -> bool := chr_in (lit "+-").
(** [[eE]] *)
Definition exp_class : codepoint -> bool := chr_in (lit "eE").

(** [_FLOAT_RE]: an optional sign [[+-]?]; then either [\d+] with an optional
    fraction (a dot and [\d*]), or a dot and [\d+]; then an optional exponent
    [[eE][+-]?\d+].  The outer parentheses of the source are the capturing
    group of the pattern that uses it. *)
Definition _FLOAT_RE : regex :=
  Seq (Opt (Cls sign_class))
 (Seq (Alt (Seq (Plus Unicode.is_digit)
                (Opt (Seq (Lit (lit ".")) (Star Unicode.is_digit))))
           (Seq (Lit (lit ".")) (Plus Unicode.is_digit)))
      (Opt (Seq (Cls exp_class)
           (Seq (Opt (Cls sign_class)) (Plus Unicode.is_digit))))).

(** [_RE_H]: one of the literals [Computed filter worst-case peak gain] and
    [Filter worst-case peak gain], a colon, [\s*], the literal [H=], and the
    group [_FLOAT_RE]. *)
Definition _RE_H : pattern :=
  mkPattern
    (Seq (Alt (Lit (lit "Computed filter worst-case peak gain"))
              (Lit (lit "Filter worst-case peak gain")))
    (Seq (Lit (lit ":")) (Seq (Star Unicode.is_space) (Lit (lit "H=")))))
    _FLOAT_RE.

(** [_RE_HEPS]: one of the literals
    [Computed error amplification worst-case peak gain] and
    [Error amplification worst-case peak gain], a colon, [\s*], the literal
    [Heps=], and the group [_FLOAT_RE]. *)
Definition _RE_HEPS : pattern :=
  mkPattern
    (Seq (Alt (Lit (lit "Computed error amplification worst-case peak gain"))
              (Lit (lit "Error amplification worst-case peak gain")))
    (Seq (Lit (lit ":")) (Seq (Star Unicode.is_space) (Lit (lit "Heps=")))))
    _FLOAT_RE.

(** [_RE_LSBEXT]: the literal [Building an IIR filter faithful to], [\s*],
    the literal [lsbExt=], and the group [[+-]?\d+]. *)
Definition _RE_LSBEXT : pattern :=
  mkPattern
    (Seq (Lit (lit "Building an IIR filter faithful to"))
    (Seq (Star Unicode.is_space) (Lit (lit "lsbExt="))))
    (Seq (Opt (Cls sign_class)) (Plus Unicode.is_digit)).

(** The three module-level patterns, by name. *)
Inductive metric : Type := MetricH | MetricHeps | MetricLsbExt.

Definition pattern_of (m : metric) : pattern :=
  match m with
  | MetricH => _RE_H
  | MetricHeps => _RE_HEPS
  | MetricLsbExt => _RE_LSBEXT
  end.

(** ** Exceptions, observable calls, and the monad of the module *)

Inductive exn : Type :=
| RuntimeError (msg : text)
| ValueError
| OtherException (name : text).

(** [_resolve_flopoco_exe]'s tests [if flopoco_exe:] and [if found:]:
    [None] and the empty string are false. *)
Definition truthy (o : option text) : option text :=
  match o with
  | Some (c :: t) => Some (c :: t)
  | _ => None
  end.

(** [x or b] on a captured stream, [b] the empty bytes literal. *)
Definition or_empty (o : option bytes) : bytes :=
  match o with
  | Some b => b
  | None => []
  end.

(** A captured stream as text: the stream is [bytes] (the process is run
    with [text=False]) or [None], so the [isinstance] test holds and the
    [except Exception] fallback is never taken ([decode] with replacement
    does not raise). *)
Definition decode_stream (o : option bytes) : text :=
  Utf8.decode_replace (or_empty o).

(** [raw_log]: [stdout], a newline, [stderr]. *)
Definition make_raw_log (stdout_b stderr_b : option bytes) : text :=
  decode_stream stdout_b ++ [NL] ++ decode_stream stderr_b.

(** How [subprocess.run] ends. *)
Inductive run_outcome : Type :=
| Completed (returncode : Z) (stdout stderr : option bytes)
| TimeoutExpired (stdout stderr : option bytes)
| FileNotFoundError
| Raised (name : text).

Section FixIIR.

(** The interpreter's [float], [float(s)] on a text and [str(x)] of a
    float. *)
Variable py_float : Type.
Variable float_of_str : text -> py_float.
Variable float_repr : py_float -> text.

Record FixIIRMetrics : Type := mkFixIIRMetrics {
  H : py_float;
  Heps : option py_float;
  lsbExt : Z;
  raw_log : text;
  timedOut : bool
}.

(** The calls the module makes to the outside and to [re]. *)
Inductive event : Type :=
| EvRun (cmd : list text) (timeout : option py_float)
| EvSearch (m : metric) (subject : text).

(** The outside world: [shutil.which], [subprocess.run], and the
    interpreter's setting [sys.get_int_max_str_digits()]. *)
Record world : Type := mkWorld {
  which : text -> option text;
  subprocess_run : list text -> option py_float -> run_outcome;
  int_max_str_digits : nat
}.

(** A computation: the calls it made, and an exception or a value. *)
Definition M (A : Type) : Type := (list event * (exn + A))%type.

Definition ret {A} (a : A) : M A := ([], inr a).
Definition raise {A} (e : exn) : M A := ([], inl e).
Definition bind {A B} (m : M A) (f : A -> M B) : M B :=
  match m with
  | (t1, inl e) => (t1, inl e)
  | (t1, inr a) => let (t2, r) := f a in (t1 ++ t2, r)
  end.

Notation "x <- m ;; f" := (bind m (fun x => f))
  (at level 61, m at next level, right associativity).

Definition trace {A} (m : M A) : list event := fst m.
Definition result {A} (m : M A) : exn + A := snd m.

(** [subprocess.run(cmd, capture_output=True, text=False, check=False,
    timeout=timeout_s)] *)
Definition run_process (w : world) (cmd : list text)
    (timeout : option py_float) : M run_outcome :=
  ([EvRun cmd timeout], inr (subprocess_run w cmd timeout)).

(** [_RE_X.search(subject)] *)
Definition re_search (m : metric) (subject : text) : M (option text) :=
  ([EvSearch m subject], inr (search (pattern_of m) subject)).

(** [int(g)] is refused for the number of its digits. *)
Definition int_refuses (w : world) (g : text) : bool :=
  PyInt.exceeds_limit (int_max_str_digits w)
    (List.length (PyInt.digits_of g)).

(** [str(n)] is refused for the number of its digits. *)
Definition str_refuses (w : world) (n : Z) : bool :=
  PyInt.exceeds_limit (int_max_str_digits w) (PyInt.int_digits n).

(** [int(m.group(1))] *)
Definition to_int (w : world) (g : text) : M Z :=
  if int_refuses w g then raise ValueError
  else
    match PyInt.int_of_str g with
    | Some z => ret z
    | None => raise ValueError
    end.

(** The replacement field of an f-string on an int, as in
    [f"lsbIn={int(lsbIn)}"]: [int] of an int is the int, and formatting it
    is [str]. *)
Definition fmt_int (w : world) (n : Z) : M text :=
  if str_refuses w n then raise ValueError else ret (str_of_int n).

Definition _resolve_flopoco_exe (w : world) (flopoco_exe : option text)
  : text :=
  match truthy flopoco_exe with
  | Some p => p
  | None =>
      match truthy (which w (lit "flopoco")) with
      | Some found => found
      | None => lit "./build/flopoco"
      end
  end.

(** The keyword arguments of [run_fixiir_and_parse_metrics]. *)
Record arguments : Type := mkArguments {
  coeffb : text;
  coeffa : text;
  lsbIn : Z;
  lsbOut : Z;
  loglevel : Z;
  generateFigures : Z;
  flopoco_exe : option text;
  extra_args : option (list text);
  timeout_s : option py_float;
  fallback_H : option py_float
}.

(** [if extra_args: cmd.extend(list(extra_args))]: [None] and the empty
    sequence add nothing. *)
Definition extend_extra (cmd : list text) (extra : option (list text))
  : list text :=
  match extra with
  | Some (x :: l) => cmd ++ x :: l
  | _ => cmd
  end.

(** The list display of [cmd] and the [extend]: the elements are evaluated
    from left to right, and an f-string whose integer cannot be formatted
    raises before anything is run. *)
Definition build_cmd (w : world) (exe : text) (a : arguments)
  : M (list text) :=
  gf <- fmt_int w (generateFigures a) ;;
  li <- fmt_int w (lsbIn a) ;;
  lo <- fmt_int w (lsbOut a) ;;
  ll <- fmt_int w (loglevel a) ;;
  ret (extend_extra
         [ exe;
           lit "generateFigures=" ++ gf;
           lit "FixIIR";
           lit "coeffb=" ++ coeffb a;
           lit "coeffa=" ++ coeffa a;
           lit "lsbIn=" ++ li;
           lit "lsbOut=" ++ lo;
           lit "loglevel=" ++ ll ]
         (extra_args a)).

(** [f"{timeout_s}"] *)
Definition fmt_timeout (t : option py_float) : text :=
  match t with
  | Some x => float_repr x
  | None => lit "None"
  end.

Definition msg_timeout (t : option py_float) (log : text) : text :=
  lit "FloPoCo timeout after " ++ fmt_timeout t
  ++ lit "s while running FixIIR. Log:" ++ [NL] ++ log.

Definition msg_not_found (exe : text) : text :=
  lit "FloPoCo executable not found: " ++ exe
  ++ lit ". Either install `flopoco` in PATH or pass flopoco_exe=...".

(** The return code is the exit status the operating system reports, a
    machine integer of a few digits: [str] never refuses it. *)
Definition msg_exit (returncode : Z) (log : text) : text :=
  lit "FloPoCo exited with code " ++ str_of_int returncode
  ++ lit ". Log:" ++ [NL] ++ log.

Definition msg_no_H (log : text) : text :=
  lit "Could not parse H from FloPoCo log. Log:" ++ [NL] ++ log.

Definition msg_no_lsbExt (log : text) : text :=
  lit "Could not parse lsbExt from FloPoCo log. Log:" ++ [NL] ++ log.

(** The [except subprocess.TimeoutExpired] handler. *)
Definition on_timeout (w : world) (a : arguments)
    (stdout_b stderr_b : option bytes) : M FixIIRMetrics :=
  let log := make_raw_log stdout_b stderr_b in
  mH <- re_search MetricH log ;;
  mHeps <- re_search MetricHeps log ;;
  mlsb <- re_search MetricLsbExt log ;;
  match mH, mlsb with
  | Some gH, Some glsb =>
      let h := float_of_str gH in
      let heps := option_map float_of_str mHeps in
      l <- to_int w glsb ;;
      ret (mkFixIIRMetrics h heps l log true)
  | _, _ => raise (RuntimeError (msg_timeout (timeout_s a) log))
  end.

(** The code after the [try] statement, for a process that ended. *)
Definition on_completed (w : world) (a : arguments) (returncode : Z)
    (stdout_b stderr_b : option bytes) : M FixIIRMetrics :=
  let log := make_raw_log stdout_b stderr_b in
  if negb (returncode =? 0)%Z
  then raise (RuntimeError (msg_exit returncode log))
  else
    mH <- re_search MetricH log ;;
    h <- match mH with
         | Some gH => ret (float_of_str gH)
         | None =>
             match fallback_H a with
             | Some f => ret f
             | None => raise (RuntimeError (msg_no_H log))
             end
         end ;;
    mHeps <- re_search MetricHeps log ;;
    let heps := option_map float_of_str mHeps in
    mlsb <- re_search MetricLsbExt log ;;
    match mlsb with
    | None => raise (RuntimeError (msg_no_lsbExt log))
    | Some glsb =>
        l <- to_int w glsb ;;
        ret (mkFixIIRMetrics h heps l log false)
    end.

Definition run_fixiir_and_parse_metrics (w : world) (a : arguments)
  : M FixIIRMetrics :=
  let exe := _resolve_flopoco_exe w (flopoco_exe a) in
  cmd <- build_cmd w exe a ;;
  proc <- run_process w cmd (timeout_s a) ;;
  match proc with
  | TimeoutExpired stdout_b stderr_b => on_timeout w a stdout_b stderr_b
  | FileNotFoundError => raise (RuntimeError (msg_not_found exe))
  | Raised name => raise (OtherException name)
  | Completed returncode stdout_b stderr_b =>
      on_completed w a returncode stdout_b stderr_b
  end.

(** How [subprocess.run] ends on the command of this call; [None] when the
    command cannot be built, so that nothing is run. *)
Definition process_outcome (w : world) (a : arguments)
  : option run_outcome :=
  match result (build_cmd w (_resolve_flopoco_exe w (flopoco_exe a)) a) with
  | inr cmd => Some (subprocess_run w cmd (timeout_s a))
  | inl _ => None
  end.

(** The four integers of the command line can be formatted. *)
Definition ints_fit (w : world) (a : arguments) : bool :=
  negb (str_refuses w (generateFigures a))
  && negb (str_refuses w (lsbIn a))
  && negb (str_refuses w (lsbOut a))
  && negb (str_refuses w (loglevel a)).

(** The command line of the arguments, once its integers are formatted. *)
Definition command_line (exe : text) (a : arguments) : list text :=
  extend_extra
    [ exe;
      lit "generateFigures=" ++ str_of_int (generateFigures a);
      lit "FixIIR";
      lit "coeffb=" ++ coeffb a;
      lit "coeffa=" ++ coeffa a;
      lit "lsbIn=" ++ str_of_int (lsbIn a);
      lit "lsbOut=" ++ str_of_int (lsbOut a);
      lit "loglevel=" ++ str_of_int (loglevel a) ]
    (extra_args a).

(** The value of [H] after a clean exit: the parsed one, else the
    fallback. *)
Definition chosen_H (mH : option text) (fallback : option py_float)
  : option py_float :=
  match mH with
  | Some gH => Some (float_of_str gH)
  | None => fallback
  end.

(** The [search] calls of a trace. *)
Definition searches (t : list event) : list (metric * text) :=
  flat_map (fun e => match e with
                     | EvSearch m subject => [(m, subject)]
                     | EvRun _ _ => []
                     end) t.

End FixIIR.

(** ** Vocabulary of the statements *)

(** The text ends, or goes on with a character that is not a digit: an
    integer read up to here is complete. *)
Definition ends_integer (post : text) : bool :=
  match post with
  | [] => true
  | c :: _ => negb (Unicode.is_digit c)
  end.

(** The text ends, or goes on with a character that is neither a digit nor
    [e] or [E]: a number with a fraction read up to here is complete. *)
Definition ends_number (post : text) : bool :=
  match post with
  | [] => true
  | c :: _ => negb (Unicode.is_digit c || exp_class c)
  end.

(** The value of a run of decimal digits, most significant first. *)
Definition decimal_value (ds : text) : Z :=
  fold_left (fun acc c =>
               (10 * acc + match Unicode.decimal c with
                           | Some d => Z.of_N d
                           | None => 0
                           end)%Z) ds 0%Z.

(** The sign prefixes of the integer grammar and what they do. *)
Inductive sign_prefix : text -> (Z -> Z) -> Prop :=
| sign_none : sign_prefix [] (fun z => z)
| sign_plus : sign_prefix (lit "+") (fun z => z)
| sign_minus : sign_prefix (lit "-") Z.opp.

(** A non-empty run of decimal digits. *)
Definition is_digits (ds : text) : Prop :=
  ds <> [] /\ forallb Unicode.is_digit ds = true.

(** The log has an [H] announcement that starts with [phrase]. *)
Definition has_H_line (phrase log : text) : Prop :=
  exists pre w g post,
    log = pre ++ w ++ post /\ Re.occurrence _RE_H w g /\
    exists t, w = phrase ++ t.

(** The announcement lines, as the tool prints them. *)
Definition line_H_computed (num : text) : text :=
  lit "Computed filter worst-case peak gain: H=" ++ num.
Definition line_H_bare (num : text) : text :=
  lit "Filter worst-case peak gain: H=" ++ num.
Definition line_lsbExt (num : text) : text :=
  lit "Building an IIR filter faithful to lsbExt=" ++ num.

(** An instance of the interpreter's floats for closed examples: a float is
    kept as the text it was read from. *)
Module Sample.
Definition float : Type := text.
Definition of_str (t : text) : float := t.
Definition repr (x : float) : text := x.

(** A world without [flopoco] on the search path, where the process ends
    as [o]; the interpreter has its default digit limit. *)
Definition world_of (o : run_outcome) : world float :=
  mkWorld (fun _ => None) (fun _ _ => o) PyInt.default_max_str_digits.

(** A world with [flopoco] on the search path. *)
Definition world_with (found : text) (o : run_outcome) : world float :=
  mkWorld (fun _ => Some found) (fun _ _ => o) PyInt.default_max_str_digits.

(** The call of the module's command-line front end with its defaults. *)
Definition args : arguments float :=
  mkArguments (lit "0x1p+0") (lit "0x1p-1") (-12) (-12) 1 0
              None None None None.

Definition with_timeout (t : float) : arguments float :=
  mkArguments (lit "0x1p+0") (lit "0x1p-1") (-12) (-12) 1 0
              None None (Some t) None.

Definition with_fallback (f : float) : arguments float :=
  mkArguments (lit "0x1p+0") (lit "0x1p-1") (-12) (-12) 1 0
              None None None (Some f).

(** ASCII text as the bytes of a captured stream. *)
Definition ascii_bytes (s : string) : bytes := list_byte_of_string s.

(** One line of output: the text and a newline. *)
Definition line (s : string) : bytes := ascii_bytes s ++ [x0a].

(** Both required announcements. *)
Definition out_metrics : bytes :=
  line "Filter worst-case peak gain: H=1.0"
  ++ line "Building an IIR filter faithful to lsbExt=4".

(** The [H] announcement and the bare token [lsbExt=4]. *)
Definition out_bare_token : bytes :=
  line "Filter worst-case peak gain: H=1.0" ++ line "lsbExt=4".

(** No [H] announcement. *)
Definition out_no_H : bytes :=
  line "Building an IIR filter faithful to lsbExt=4".

(** Both phrasings of the [H] announcement, the bare one first. *)
Definition out_both_phrasings : bytes :=
  line "Filter worst-case peak gain: H=2.5"
  ++ line "Computed filter worst-case peak gain: H=1.5"
  ++ line "Building an IIR filter faithful to lsbExt=4".

(** Two lsbExt announcements, [lsbExt=-3] second. *)
Definition out_two_lsbExt : bytes :=
  line "Filter worst-case peak gain: H=1.0"
  ++ line "Building an IIR filter faithful to lsbExt=5"
  ++ line "Building an IIR filter faithful to lsbExt=-3".

(** One lsbExt announcement, [lsbExt=-3]. *)
Definition out_minus3 : bytes :=
  line "Filter worst-case peak gain: H=1.0"
  ++ line "Building an IIR filter faithful to lsbExt=-3".

(** A failing run: a message and a byte that is not UTF-8. *)
Definition out_failure : bytes := ascii_bytes "boom" ++ [xff].

(** The call with extra arguments. *)
Definition with_extra (l : list text) : arguments float :=
  mkArguments (lit "0x1p+0") (lit "0x1p-1") (-12) (-12) 1 0
              None (Some l) None None.

(** The call with another [lsbIn]. *)
Definition with_lsbIn (n : Z) : arguments float :=
  mkArguments (lit "0x1p+0") (lit "0x1p-1") n (-12) 1 0
              None None None None.

(** Both required announcements, [lsbExt] a number of [n] digits. *)
Definition out_long (n : nat) : bytes :=
  line "Filter worst-case peak gain: H=1.0"
  ++ ascii_bytes "Building an IIR filter faithful to lsbExt="
  ++ repeat x31 n ++ [x0a].
End Sample.

(** ** [str.join] and [str.split] *)

Module Str.

(** [sep.join(l)] *)
Fixpoint join (sep : text) (l : list text) : text :=
  match l with
  | [] => []
  | [x] => x
  | x :: l' => x ++ sep ++ join sep l'
  end.

(** [s.split(sep)] for a one-character separator: the pieces between the
    separators; the empty text gives one empty piece. *)
Fixpoint split (sep : codepoint) (s : text) : list text :=
  match s with
  | [] => [[]]
  | c :: s' =>
      if N.eqb c sep then [] :: split sep s'
      else
        match split sep s' with
        | piece :: rest => (c :: piece) :: rest
        | [] => [[c]]
        end
  end.

End Str.

(** ** [csv.writer] with the default dialect

    Delimiter comma, quote character the double quote, line terminator CR LF, minimal
    quoting: a field is quoted when it holds the delimiter, the quote
    character, CR or LF (quote characters inside it are doubled), and so is
    the empty field of a one-field row.  Integers are written as [str]
    gives them. *)

Module Csv.

Inductive cell : Type :=
| CInt (z : Z)
| CStr (t : text).

Definition cell_text (c : cell) : text :=
  match c with
  | CInt z => str_of_int z
  | CStr t => t
  end.

Definition COMMA : codepoint := 44%N.
Definition QUOTE : codepoint := 34%N.
Definition CR : codepoint := 13%N.
Definition LF : codepoint := 10%N.

Definition special (c : codepoint) : bool :=
  N.eqb c COMMA || N.eqb c QUOTE || N.eqb c CR || N.eqb c LF.

Definition needs_quotes (t : text) : bool := existsb special t.

Definition double_quotes (t : text) : text :=
  flat_map (fun c => if N.eqb c QUOTE then [QUOTE; QUOTE] else [c]) t.

Definition field (t : text) : text :=
  if needs_quotes t then [QUOTE] ++ double_quotes t ++ [QUOTE] else t.

(** [writer.writerow(row)]: the text written. *)
Definition writerow (row : list cell) : text :=
  match map cell_text row with
  | [[]] => [QUOTE; QUOTE; CR; LF]
  | fields => Str.join [COMMA] (map field fields) ++ [CR; LF]
  end.

End Csv.

(** ** [exporter_csv] *)

Module TableCsv.
Import TableVerite Csv.

(** The f-string of a prefix and an index. *)
Definition label (prefix : string) (i : Z) : cell :=
  CStr (lit prefix ++ str_of_int i).

Definition ints (l : list Z) : list cell := map CInt l.

(** The header row. *)
Definition header : list cell :=
  map (label "E") (range 8)
  ++ [CStr (lit "|")]
  ++ map (label "WE") (range 8)
  ++ [CStr (lit "||")]
  ++ [CStr (lit "Sel2"); CStr (lit "Sel1"); CStr (lit "Sel0")].

(** The row written for [n]. *)
Definition data_row (n : Z) : list cell :=
  ints (compteur n)
  ++ [CStr (lit "|")]
  ++ ints (firstn 8 (sortie n))
  ++ [CStr (lit "||")]
  ++ ints (skipn 8 (sortie n)).

(** The rows in the order they are written. *)
Definition rows : list (list cell) :=
  header :: map data_row (range 256).

(** What the writer puts in the file. *)
Definition contents : text := flat_map writerow rows.

(** The files of the working directory: a name is bound to its text, or is
    missing. *)
Definition files := text -> option text.

Definition text_eqb (a b : text) : bool :=
  if list_eq_dec N.eq_dec a b then true else false.

(** [exporter_csv(nom)]: the file is opened for writing (created, or
    emptied) and receives the table. *)
Definition exporter_csv (nom : text) (fs : files) : files :=
  fun name => if text_eqb name nom then Some contents else fs name.

(** The call at the end of the module, with the default name. *)
Definition module_body (fs : files) : files :=
  exporter_csv (lit "table_verite.csv") fs.

End TableCsv.

(** ** [coeffs_to_flopoco_hex_list] and the command-line front end *)

Section FrontEnd.

(** The interpreter's [float] as before, and [x.hex()]. *)
Variable py_float : Type.
Variable float_of_str : text -> py_float.
Variable float_repr : py_float -> text.
Variable float_hex : py_float -> text.

(** The coefficients are floats, so [float(c)] is [c]. *)
Definition coeffs_to_flopoco_hex_list (coeffs : list py_float) : text :=
  Str.join (lit ":") (map float_hex coeffs).

(** The namespace [argparse] returns: [--coeffb] and [--coeffa] are
    required, the integers have defaults, [--flopoco] defaults to [None].
    Parsing the command line itself is [argparse]'s and is not modelled. *)
Record namespace : Type := mkNamespace {
  ns_coeffb : text;
  ns_coeffa : text;
  ns_lsbIn : Z;
  ns_lsbOut : Z;
  ns_loglevel : Z;
  ns_generateFigures : Z;
  ns_flopoco_exe : option text
}.

(** The keyword arguments the front end passes: [extra_args], [timeout_s]
    and [fallback_H] keep their default [None]. *)
Definition front_end_arguments (args : namespace) : arguments py_float :=
  mkArguments (ns_coeffb args) (ns_coeffa args) (ns_lsbIn args)
              (ns_lsbOut args) (ns_loglevel args) (ns_generateFigures args)
              (ns_flopoco_exe args) None None None.

(** The f-string of an optional float: [None] prints as [None]. *)
Definition str_of_optional (x : option py_float) : text :=
  match x with
  | Some v => float_repr v
  | None => lit "None"
  end.

(** The body of the [__main__] block after parsing; the value is the list
    of lines printed. *)
Definition main (w : world py_float) (args : namespace)
  : M py_float (list text) :=
  bind (run_fixiir_and_parse_metrics float_of_str float_repr w
          (front_end_arguments args))
       (fun m =>
          bind (fmt_int w (lsbExt m))
               (fun l =>
                  ret py_float
                    [ lit "H=" ++ float_repr (H m);
                      lit "Heps=" ++ str_of_optional (Heps m);
                      lit "lsbExt=" ++ l ])).

End FrontEnd.

(** ** More vocabulary *)

(** The value of a list of binary digits, most significant first. *)
Definition of_bits (l : list Z) : Z :=
  fold_left (fun acc b => (2 * acc + b)%Z) l 0%Z.

(** The characters a number of the float grammar is made of. *)
Definition number_char (c : codepoint) : bool :=
  Unicode.is_digit c || sign_class c || exp_class c || N.eqb c 46.

(** The spawns of a trace. *)
Definition spawns (py_float : Type) (t : list (event py_float))
  : list (list text) :=
  flat_map (fun e => match e with
                     | EvRun cmd _ => [cmd]
                     | EvSearch _ _ _ => []
                     end) t.

(** The value of decimal digits read after [acc], most significant
    first. *)
Fixpoint uint_value (acc : Z) (d : Decimal.uint) : Z :=
  match d with
  | Decimal.Nil => acc
  | Decimal.D0 d => uint_value (10 * acc + 0) d
  | Decimal.D1 d => uint_value (10 * acc + 1) d
  | Decimal.D2 d => uint_value (10 * acc + 2) d
  | Decimal.D3 d => uint_value (10 * acc + 3) d
  | Decimal.D4 d => uint_value (10 * acc + 4) d
  | Decimal.D5 d => uint_value (10 * acc + 5) d
  | Decimal.D6 d => uint_value (10 * acc + 6) d
  | Decimal.D7 d => uint_value (10 * acc + 7) d
  | Decimal.D8 d => uint_value (10 * acc + 8) d
  | Decimal.D9 d => uint_value (10 * acc + 9) d
  end.

(** The decimal digits of a text as a [Decimal.uint], digit by digit. *)
Definition digit_uint (d : N) (u : Decimal.uint) : Decimal.uint :=
  match d with
  | 0 => Decimal.D0 u | 1 => Decimal.D1 u | 2 => Decimal.D2 u
  | 3 => Decimal.D3 u | 4 => Decimal.D4 u | 5 => Decimal.D5 u
  | 6 => Decimal.D6 u | 7 => Decimal.D7 u | 8 => Decimal.D8 u
  | _ => Decimal.D9 u
  end%N.

Fixpoint uint_of_digits (ds : text) : Decimal.uint :=
  match ds with
  | [] => Decimal.Nil
  | c :: t =>
      match Unicode.decimal c with
      | Some d => digit_uint d (uint_of_digits t)
      | None => Decimal.Nil
      end
  end.

(** The characters after the phrase of an announcement: the colon, blanks,
    the name with its [=], and the number. *)
Definition after_phrase (c : codepoint) : bool :=
  Unicode.is_space c || number_char c || chr_in (lit ":Heps=") c.

(** More runs for closed examples. *)
Module SampleMore.

(** [x.hex()] on the sample floats: the float is its text. *)
Definition hex (x : Sample.float) : text := x.

(** The lsbExt announcement broken over two lines, with a tab. *)
Definition out_blanks : bytes :=
  Sample.line "Filter worst-case peak gain: H=1.0"
  ++ Sample.line "Building an IIR filter faithful to"
  ++ [x09] ++ Sample.line "lsbExt=+7".

(** The namespace of a command line that gives the two coefficient lists
    only. *)
Definition ns : namespace :=
  mkNamespace (lit "0x1p+0") (lit "0x1p-1") (-12) (-12) 1 0 None.

(** What a clean exit with [Sample.out_metrics] returns. *)
Definition returned : FixIIRMetrics Sample.float :=
  mkFixIIRMetrics (lit "1.0") None 4
    (make_raw_log (Some Sample.out_metrics) None) false.

End SampleMore.

(** * The truth table *)

Module TableVeriteFacts.
Import TableVerite.
Open Scope Z_scope.

(** [(n >> j) & 1] is bit [j] of [n]. *)
Lemma land_shiftr_1 (n j : Z) :
  0 <= j -> Z.land (Z.shiftr n j) 1 = Z.b2z (Z.testbit n j).
Proof.
  intros Hj.
  change 1 with (Z.ones 1) at 1.
  rewrite Z.land_ones by lia.
  change (2 ^ 1) with 2.
  rewrite <- Z.bit0_mod, Z.shiftr_spec by lia.
  reflexivity.
Qed.

(** [compteur(n)] lists the bits of [n], most significant first: index [k]
    holds bit [7 - k]. *)
Lemma compteur_nth (n : Z) (k : nat) :
  (k < 8)%nat ->
  nth k (compteur n) 0 = Z.b2z (Z.testbit n (7 - Z.of_nat k)).
Proof.
  intros Hk.
  do 8 (destruct k as [|k]; [apply land_shiftr_1; lia|]).
  lia.
Qed.

Lemma bit3_bits (j : Z) :
  bit3 j = [Z.b2z (Z.testbit j 2); Z.b2z (Z.testbit j 1);
            Z.b2z (Z.testbit j 0)].
Proof.
  unfold bit3; cbn [reversed_range seq map rev app].
  now rewrite !land_shiftr_1 by lia.
Qed.

(** The loop, entered at [k = k1 - 1] with all bits below [8 - k1] set:
    it stops at the lowest clear bit, or falls through when there is none. *)
Lemma sortie_while_spec (n : Z) (k1 : nat) :
  (k1 <= 8)%nat ->
  (forall i, 0 <= i < 8 - Z.of_nat k1 -> Z.testbit n i = true) ->
  (exists j,
     0 <= j <= 7 /\ Z.testbit n j = false /\
     (forall i, 0 <= i < j -> Z.testbit n i = true) /\
     sortie_while n k1 = map (fun i => int_eq i (7 - j)) (range 8) ++ bit3 j)
  \/
  ((forall i, 0 <= i < 8 -> Z.testbit n i = true) /\
   sortie_while n k1 = repeat 0 8 ++ repeat 0 3).
Proof.
  induction k1 as [|k IH]; intros Hk Low.
  - right; split; [|reflexivity].
    intros i Hi; apply Low; lia.
  - cbn [sortie_while].
    rewrite compteur_nth by lia.
    destruct (Z.testbit n (7 - Z.of_nat k)) eqn:B; cbn [Z.b2z Z.eqb].
    + apply IH; [lia|].
      intros i Hi.
      destruct (Z.eq_dec i (7 - Z.of_nat k)) as [->|]; [assumption|].
      apply Low; lia.
    + left; exists (7 - Z.of_nat k); repeat split; try lia; auto.
      * intros i Hi; apply Low; lia.
      * now replace (7 - (7 - Z.of_nat k)) with (Z.of_nat k) by lia.
Qed.

(** A byte with its eight bits set is 255. *)
Lemma all_bits_255 (n : Z) :
  0 <= n <= 255 -> (forall i, 0 <= i < 8 -> Z.testbit n i = true) -> n = 255.
Proof.
  intros Hn Hb; apply Z.bits_inj'; intros i Hi.
  destruct (Z.lt_ge_cases i 8) as [L|L].
  - rewrite Hb by lia.
    assert (E : i = 0 \/ i = 1 \/ i = 2 \/ i = 3 \/ i = 4 \/ i = 5 \/ i = 6
                \/ i = 7) by lia.
    repeat destruct E as [->|E]; try subst i; reflexivity.
  - rewrite !Z.bits_above_log2; try reflexivity; try lia.
    + change (Z.log2 255) with 7; lia.
    + destruct (Z.eq_dec n 0) as [->|]; [simpl; lia|].
      assert (Z.log2 n <= Z.log2 255) by (apply Z.log2_le_mono; lia).
      change (Z.log2 255) with 7 in *; lia.
Qed.

Lemma onehot_nth (p : Z) (i : nat) :
  (i < 8)%nat ->
  nth i (map (fun x => int_eq x p) (range 8) ++ bit3 0) 0 =
  if Z.of_nat i =? p then 1 else 0.
Proof.
  intros Hi.
  do 8 (destruct i as [|i]; [reflexivity|]); lia.
Qed.

(** C10.  For [0 <= n <= 255], [sortie n] has eleven entries, each 0 or 1;
    for [n = 255] they are all 0; otherwise, with [j] the lowest clear bit of
    [n], the first eight entries hold a single 1, at index [7 - j] (the index
    where [compteur n] holds bit [j]), and the last three are the binary
    digits of [j], most significant first. *)
Theorem sortie_table (n : Z) :
  0 <= n <= 255 ->
  List.length (sortie n) = 11%nat /\
  Forall (fun b => b = 0 \/ b = 1) (sortie n) /\
  (n = 255 -> sortie n = repeat 0 11) /\
  (n <> 255 ->
   exists j,
     0 <= j <= 7 /\ Z.testbit n j = false /\
     (forall i, 0 <= i < j -> Z.testbit n i = true) /\
     (forall i, (i < 8)%nat ->
        nth i (sortie n) 0 = if Z.of_nat i =? 7 - j then 1 else 0) /\
     skipn 8 (sortie n) =
       [Z.b2z (Z.testbit j 2); Z.b2z (Z.testbit j 1); Z.b2z (Z.testbit j 0)]
     /\ nth (Z.to_nat (7 - j)) (compteur n) 1 = 0) /\
  (forall i, 0 <= i <= 7 ->
     nth (Z.to_nat (7 - i)) (compteur n) 0 = Z.b2z (Z.testbit n i)).
Proof.
  intros Hn.
  assert (S : (exists j,
     0 <= j <= 7 /\ Z.testbit n j = false /\
     (forall i, 0 <= i < j -> Z.testbit n i = true) /\
     sortie n = map (fun i => int_eq i (7 - j)) (range 8) ++ bit3 j)
   \/ (n = 255 /\ sortie n = repeat 0 11)).
  { destruct (@sortie_while_spec n 8) as [S|[A S]]; [lia| |auto|].
    - intros i Hi; simpl in Hi; lia.
    - right; split; [now apply all_bits_255|exact S]. }
  assert (C : forall i, 0 <= i <= 7 ->
     nth (Z.to_nat (7 - i)) (compteur n) 0 = Z.b2z (Z.testbit n i)).
  { intros i Hi; rewrite compteur_nth by lia.
    f_equal; f_equal; lia. }
  destruct S as [(j & Hj & B & Low & E)|[-> E]].
  - rewrite E, bit3_bits.
    split; [reflexivity|split; [|split; [|split]]].
    + apply Forall_app; split.
      * apply Forall_forall; intros b Hb.
        apply in_map_iff in Hb as (x & <- & _).
        unfold int_eq; destruct (x =? 7 - j); auto.
      * apply Forall_forall; intros b Hb; cbn [In] in Hb.
        destruct Hb as [<-|[<-|[<-|[]]]];
          match goal with |- context [Z.testbit ?a ?b] =>
            destruct (Z.testbit a b); auto end.
    + intros ->; exfalso.
      assert (j = 0 \/ j = 1 \/ j = 2 \/ j = 3 \/ j = 4 \/ j = 5 \/ j = 6
              \/ j = 7) as Ej by lia.
      repeat destruct Ej as [->|Ej]; try subst j; discriminate.
    + intros _; exists j; repeat split; try lia; auto.
      * intros i Hi; rewrite <- (onehot_nth (7 - j) Hi).
        rewrite !app_nth1; [reflexivity|cbn; lia|cbn; lia].
      * rewrite nth_indep with (d' := 0)
          by (change (List.length (compteur n)) with 8%nat; lia).
        now rewrite (C j Hj), B.
    + exact C.
  - rewrite E; split; [reflexivity|split; [|split; [|split]]].
    + repeat constructor; auto.
    + reflexivity.
    + congruence.
    + exact C.
Qed.

End TableVeriteFacts.

(** * Properties of the matcher *)

Module ReFacts.
Import Re.

Lemma strip_app (l s : text) : strip l (l ++ s) = Some s.
Proof.
  induction l as [|a l IH]; simpl; [reflexivity|].
  now rewrite N.eqb_refl.
Qed.

Lemma strip_Some (l s s' : text) : strip l s = Some s' -> s = l ++ s'.
Proof.
  revert s; induction l as [|a l IH]; intros [|b s]; simpl; try congruence.
  destruct (N.eqb_spec a b) as [->|]; [|discriminate].
  intros E; now rewrite (IH _ E).
Qed.

Section MatcherFacts.
Variable A : Type.
Implicit Types (k : text -> option A) (p : codepoint -> bool).

(** Whatever [star] returns was returned by the continuation after a run
    of characters of the class. *)
Lemma star_sound p s k x :
  star p s k = Some x ->
  exists w s', s = w ++ s' /\ forallb p w = true /\ k s' = Some x.
Proof.
  induction s as [|c s IH]; simpl; intros E.
  - exists [], []; auto.
  - destruct (p c) eqn:Pc.
    + destruct (star p s k) as [y|] eqn:Es.
      * injection E as ->.
        destruct (IH eq_refl) as (w & s' & -> & Fw & Ek).
        exists (c :: w), s'; simpl; rewrite Pc; auto.
      * exists [], (c :: s); auto.
    + exists [], (c :: s); auto.
Qed.

(** If the continuation accepts after some run of characters of the
    class, [star] finds a match (maybe after a longer run). *)
Lemma star_complete p w s' k x :
  forallb p w = true -> k s' = Some x ->
  exists y, star p (w ++ s') k = Some y.
Proof.
  intros Fw Ek; induction w as [|c w IH]; simpl in *.
  - destruct s' as [|c s'']; simpl; [eauto|].
    destruct (p c); [|eauto].
    destruct (star p s'' k); eauto.
  - apply andb_true_iff in Fw as [Pc Fw]; rewrite Pc.
    destruct (IH Fw) as [y ->]; eauto.
Qed.

(** Greedy: the whole run is taken when the continuation accepts what
    [star] does from its end. *)
Lemma star_greedy p w s' k x :
  forallb p w = true -> star p s' k = Some x ->
  star p (w ++ s') k = Some x.
Proof.
  intros Fw Ek; induction w as [|c w IH]; simpl in *; [assumption|].
  apply andb_true_iff in Fw as [Pc Fw]; rewrite Pc.
  now rewrite (IH Fw).
Qed.

(** On a text that does not go on with the class, [star] takes nothing. *)
Lemma star_stop p s k :
  match s with [] => true | c :: _ => negb (p c) end = true ->
  star p s k = k s.
Proof.
  destruct s as [|c s]; simpl; [reflexivity|].
  now intros ->%negb_true_iff.
Qed.

Lemma rmatch_sound r : forall s k x,
  rmatch r s k = Some x ->
  exists w s', s = w ++ s' /\ lang r w /\ k s' = Some x.
Proof.
  induction r as [l|p|r1 IH1 r2 IH2|r1 IH1 r2 IH2|r1 IH1|p];
    simpl; intros s k x E.
  - destruct (strip l s) as [s'|] eqn:Es; [|discriminate].
    exists l, s'; split; [now apply strip_Some|auto].
  - destruct s as [|c s]; [discriminate|].
    destruct (p c) eqn:Pc; [|discriminate].
    exists [c], s; simpl; eauto.
  - apply IH1 in E as (w1 & s1 & -> & L1 & E).
    apply IH2 in E as (w2 & s2 & -> & L2 & E).
    exists (w1 ++ w2), s2; rewrite <- app_assoc; eauto 7.
  - destruct (rmatch r1 s k) as [y|] eqn:E1.
    + injection E as ->.
      apply IH1 in E1 as (w & s' & -> & L & E); eauto 7.
    + apply IH2 in E as (w & s' & -> & L & E); eauto 7.
  - destruct (rmatch r1 s k) as [y|] eqn:E1.
    + injection E as ->.
      apply IH1 in E1 as (w & s' & -> & L & E); eauto 7.
    + exists [], s; auto.
  - now apply star_sound.
Qed.

Lemma rmatch_complete r : forall w s' k x,
  lang r w -> k s' = Some x ->
  exists y, rmatch r (w ++ s') k = Some y.
Proof.
  induction r as [l|p|r1 IH1 r2 IH2|r1 IH1 r2 IH2|r1 IH1|p];
    simpl; intros w s' k x L Ek.
  - subst w; rewrite strip_app; eauto.
  - destruct L as (c & -> & Pc); simpl; rewrite Pc; eauto.
  - destruct L as (w1 & w2 & -> & L1 & L2).
    destruct (IH2 _ _ _ _ L2 Ek) as [y Ey].
    rewrite <- app_assoc.
    exact (IH1 w1 (w2 ++ s') (fun s1 => rmatch r2 s1 k) y L1 Ey).
  - destruct (rmatch r1 (w ++ s') k) eqn:E1; [eauto|].
    destruct L as [L|L]; [|eauto].
    destruct (IH1 _ _ _ _ L Ek) as [y Ey]; congruence.
  - destruct (rmatch r1 (w ++ s') k) eqn:E1; [eauto|].
    destruct L as [->|L]; [simpl; eauto|].
    destruct (IH1 _ _ _ _ L Ek) as [y Ey]; congruence.
  - eapply star_complete; eauto.
Qed.
End MatcherFacts.

Lemma firstn_length_diff (w s : text) :
  firstn (List.length (w ++ s) - List.length s) (w ++ s) = w.
Proof.
  rewrite length_app, Nat.add_sub.
  now rewrite firstn_app, Nat.sub_diag, firstn_all, firstn_O, app_nil_r.
Qed.

(** An anchored match consumes an occurrence of the pattern and returns its
    group 1. *)
Lemma match_at_sound (p : pattern) (s g : text) :
  match_at p s = Some g ->
  exists w rest, s = w ++ rest /\ occurrence p w g.
Proof.
  unfold match_at; intros E.
  apply rmatch_sound in E as (w1 & s1 & -> & L1 & E).
  apply rmatch_sound in E as (w2 & s2 & -> & L2 & E).
  rewrite firstn_length_diff in E; injection E as <-.
  exists (w1 ++ w2), s2; rewrite <- app_assoc; split; [reflexivity|].
  exists w1; auto.
Qed.

(** Where the pattern has an occurrence, the anchored match succeeds. *)
Lemma match_at_complete (p : pattern) (w g rest : text) :
  occurrence p w g -> exists g', match_at p (w ++ rest) = Some g'.
Proof.
  intros (w1 & -> & L1 & L2); unfold match_at.
  rewrite <- app_assoc.
  assert (exists y,
    rmatch (p_group1 p) (g ++ rest)
      (fun s2 => Some (firstn (List.length (g ++ rest) - List.length s2)
                         (g ++ rest))) = Some y) as [y Ey]
    by (eapply rmatch_complete; [eassumption|reflexivity]).
  eapply rmatch_complete; [eassumption|].
  exact Ey.
Qed.

(** ** [search] is the leftmost anchored match *)

Lemma search_Some (p : pattern) (s g : text) :
  search p s = Some g <->
  exists i, i <= List.length s /\ match_at p (skipn i s) = Some g /\
            forall j, j < i -> match_at p (skipn j s) = None.
Proof.
  split.
  - induction s as [|c s IH]; simpl.
    + destruct (match_at p []) eqn:E; [|discriminate].
      intros [= ->]; exists 0; simpl; repeat split; auto; lia.
    + destruct (match_at p (c :: s)) eqn:E.
      * intros [= ->]; exists 0; simpl; repeat split; auto; lia.
      * intros Es; destruct (IH Es) as (i & Li & Ei & Hj).
        exists (S i); simpl; repeat split; auto; [lia|].
        intros [|j] Lj; simpl; [assumption|apply Hj; lia].
  - intros (i & Li & Ei & Hj); revert i Li Ei Hj.
    induction s as [|c s IH]; intros i Li Ei Hj.
    + simpl in Li; assert (i = 0) as -> by lia.
      simpl in Ei; simpl; now rewrite Ei.
    + destruct i as [|i]; simpl in *.
      * now rewrite Ei.
      * pose proof (Hj 0 (Nat.lt_0_succ i)) as E0; simpl in E0; rewrite E0.
        apply (IH i); [lia|assumption|].
        intros j Lj; apply (Hj (S j)); lia.
Qed.

Lemma search_None (p : pattern) (s : text) :
  search p s = None <->
  forall i, i <= List.length s -> match_at p (skipn i s) = None.
Proof.
  split.
  - induction s as [|c s IH]; simpl.
    + destruct (match_at p []) eqn:E; [discriminate|].
      intros _ i Li; assert (i = 0) as -> by lia; assumption.
    + destruct (match_at p (c :: s)) eqn:E; [discriminate|].
      intros Es [|i] Li; simpl; [assumption|apply (IH Es); lia].
  - induction s as [|c s IH]; intros Hi; simpl.
    + pose proof (Hi 0 (Nat.le_refl _)) as E0; simpl in E0; now rewrite E0.
    + pose proof (Hi 0 (Nat.le_0_l _)) as E0; simpl in E0; rewrite E0.
      apply IH; intros i Li; apply (Hi (S i)); simpl; lia.
Qed.

(** The anchored match succeeds exactly where the pattern has an
    occurrence. *)
Lemma match_at_occurs (p : pattern) (s : text) (i : nat) :
  (exists g, match_at p (skipn i s) = Some g) <-> occurs_at p s i.
Proof.
  split.
  - intros [g E]; apply match_at_sound in E as (w & rest & E & O).
    exists w, g, rest; auto.
  - intros (w & g & rest & -> & O); now apply match_at_complete with g.
Qed.

Lemma match_at_None_occurs (p : pattern) (s : text) (i : nat) :
  match_at p (skipn i s) = None <-> ~ occurs_at p s i.
Proof.
  rewrite <- match_at_occurs; split.
  - intros E [g E']; congruence.
  - intros N; destruct (match_at p (skipn i s)) eqn:E; [|reflexivity].
    exfalso; eauto.
Qed.

Lemma occurs_at_bound (p : pattern) (s : text) (i : nat) :
  occurs_at p s i -> List.length s < i -> occurs_at p s (List.length s).
Proof.
  intros (w & g & rest & E & O) Li.
  exists w, g, rest; split; [|assumption].
  rewrite skipn_all; rewrite skipn_all2 in E by lia; assumption.
Qed.

(** [search] returns group 1 of the match at the first occurrence. *)
Lemma search_first_occurrence (p : pattern) (s : text) (i : nat) :
  first_occurrence p s i -> i <= List.length s ->
  exists g, match_at p (skipn i s) = Some g /\ search p s = Some g.
Proof.
  intros [O F] Li.
  apply match_at_occurs in O as [g E].
  exists g; split; [assumption|].
  apply search_Some; exists i; repeat split; auto.
  intros j Lj; apply match_at_None_occurs; auto.
Qed.

(** No match at all exactly when the pattern occurs nowhere. *)
Lemma search_None_occurs (p : pattern) (s : text) :
  search p s = None <-> forall i, ~ occurs_at p s i.
Proof.
  rewrite search_None; split.
  - intros N i O.
    destruct (Nat.le_gt_cases i (List.length s)) as [Li|Li].
    + apply match_at_None_occurs in O; auto.
    + apply occurs_at_bound in O; [|assumption].
      apply match_at_None_occurs in O; auto.
  - intros N i _; apply match_at_None_occurs; auto.
Qed.

(** A match right after [pre], with no occurrence starting inside [pre], is
    the one [search] returns. *)
Lemma search_after_prefix (p : pattern) (pre rest g : text) :
  match_at p rest = Some g ->
  (forall j, j < List.length pre -> ~ occurs_at p (pre ++ rest) j) ->
  search p (pre ++ rest) = Some g.
Proof.
  intros E F; apply search_Some; exists (List.length pre).
  rewrite skipn_app, skipn_all, Nat.sub_diag; simpl.
  repeat split; [rewrite length_app; lia|assumption|].
  intros j Lj; apply match_at_None_occurs; auto.
Qed.

(** Checking by evaluation that no occurrence starts before position
    [n]. *)
Lemma no_occurrence_before (p : pattern) (s : text) (n : nat) :
  forallb (fun j => match match_at p (skipn j s) with
                    | None => true
                    | Some _ => false
                    end) (seq 0 n) = true ->
  forall j, j < n -> ~ occurs_at p s j.
Proof.
  intros C j Lj; apply match_at_None_occurs.
  rewrite forallb_forall in C.
  specialize (C j); rewrite in_seq in C.
  destruct (match_at p (skipn j s)); [|reflexivity].
  discriminate C; lia.
Qed.

Lemma occurs_at_contains (p : pattern) (pre w g post : text) :
  occurrence p w g -> occurs_at p (pre ++ w ++ post) (List.length pre).
Proof.
  intros O; exists w, g, post; split; [|assumption].
  now rewrite skipn_app, skipn_all, Nat.sub_diag.
Qed.

(** A text with an occurrence has a first one, and [search] finds it. *)
Lemma first_occurrence_exists (p : pattern) (s : text) (j : nat) :
  occurs_at p s j ->
  exists i g, first_occurrence p s i /\ i <= List.length s /\
              match_at p (skipn i s) = Some g /\ search p s = Some g.
Proof.
  intros O.
  destruct (search p s) as [g|] eqn:E.
  - pose proof E as E'.
    apply search_Some in E' as (i & Li & Ei & Fi).
    exists i, g; repeat split; auto.
    + apply match_at_occurs; eauto.
    + intros k Lk; apply match_at_None_occurs; auto.
  - exfalso; eapply search_None_occurs; eauto.
Qed.

End ReFacts.

(** * Properties of the runtime pieces *)

Module PyIntFacts.
Import PyInt.

Lemma is_digit_decimal (c : codepoint) :
  Unicode.is_digit c = true -> exists d, Unicode.decimal c = Some d.
Proof.
  unfold Unicode.is_digit; destruct (Unicode.decimal c); [eauto|discriminate].
Qed.

Lemma sign_class_inv (c : codepoint) :
  sign_class c = true -> c = 43%N \/ c = 45%N.
Proof.
  unfold sign_class, chr_in; simpl.
  destruct (N.eqb_spec c 43); [auto|].
  destruct (N.eqb_spec c 45); [auto|discriminate].
Qed.

Lemma digit_not_sign (c : codepoint) :
  Unicode.is_digit c = true -> sign_class c = false.
Proof.
  intros D; destruct (sign_class c) eqn:S; [|reflexivity].
  apply sign_class_inv in S as [->| ->]; vm_compute in D; discriminate.
Qed.

Lemma digits_value_fold (ds : text) : forall acc,
  forallb Unicode.is_digit ds = true ->
  digits_value acc ds =
  Some (fold_left (fun a c =>
                     (10 * a + match Unicode.decimal c with
                               | Some d => Z.of_N d
                               | None => 0
                               end)%Z) ds acc).
Proof.
  induction ds as [|c ds IH]; simpl; intros acc D; [reflexivity|].
  apply andb_true_iff in D as [Dc D].
  destruct (is_digit_decimal _ Dc) as [d ->]; now apply IH.
Qed.

Lemma unsigned_value_digits (ds : text) :
  is_digits ds -> unsigned_value ds = Some (decimal_value ds).
Proof.
  intros [N D]; destruct ds as [|c ds]; [congruence|].
  unfold unsigned_value, decimal_value; now apply digits_value_fold.
Qed.

(** [int] on a sign and digits is the signed decimal value. *)
Lemma int_of_str_signed (sgn ds : text) (f : Z -> Z) :
  sign_prefix sgn f -> is_digits ds ->
  int_of_str (sgn ++ ds) = Some (f (decimal_value ds)).
Proof.
  intros S D; destruct S; simpl.
  - destruct ds as [|c ds]; [destruct D; congruence|].
    assert (Dc : Unicode.is_digit c = true)
      by (destruct D as [_ D]; simpl in D; now apply andb_true_iff in D).
    unfold int_of_str.
    destruct (N.eqb_spec c 45) as [->|]; [vm_compute in Dc; discriminate|].
    destruct (N.eqb_spec c 43) as [->|]; [vm_compute in Dc; discriminate|].
    now apply unsigned_value_digits.
  - now apply unsigned_value_digits.
  - now rewrite unsigned_value_digits.
Qed.

(** The texts of the integer group [[+-]?\d+]. *)
Lemma lang_integer (g : text) :
  Re.lang (p_group1 _RE_LSBEXT) g ->
  exists sgn f ds, g = sgn ++ ds /\ sign_prefix sgn f /\ is_digits ds.
Proof.
  simpl; intros (w1 & w2 & -> & S & (d1 & d2 & -> & (c & -> & Dc) & Ds)).
  assert (D : is_digits ([c] ++ d2)).
  { split; [discriminate|]; simpl; now rewrite Dc. }
  destruct S as [->|(s & -> & S)].
  - exists [], (fun z => z), ([c] ++ d2); repeat split; try apply D.
    constructor.
  - apply sign_class_inv in S as [->| ->].
    + exists (lit "+"), (fun z => z), ([c] ++ d2); repeat split;
        try apply D; constructor.
    + exists (lit "-"), Z.opp, ([c] ++ d2); repeat split;
        try apply D; constructor.
Qed.

(** Whatever the lsbExt pattern captures, [int] converts it. *)
Lemma search_lsbExt_int (log g : text) :
  Re.search _RE_LSBEXT log = Some g ->
  exists sgn f ds, g = sgn ++ ds /\ sign_prefix sgn f /\ is_digits ds /\
                   int_of_str g = Some (f (decimal_value ds)).
Proof.
  intros E; apply ReFacts.search_Some in E as (i & _ & E & _).
  apply ReFacts.match_at_sound in E as (w & rest & _ & (w1 & _ & _ & L)).
  destruct (lang_integer L) as (sgn & f & ds & -> & S & D).
  exists sgn, f, ds; repeat split; try apply D; auto.
  now apply int_of_str_signed.
Qed.

(** Fewer digits are not refused where more are accepted. *)
Lemma exceeds_limit_le (lim d d' : nat) :
  (d <= d')%nat -> exceeds_limit lim d' = false -> exceeds_limit lim d = false.
Proof.
  unfold exceeds_limit; intros L E.
  destruct (Nat.ltb_spec str_digits_check_threshold d');
    destruct (Nat.ltb_spec 0 lim); destruct (Nat.ltb_spec lim d');
    try discriminate;
    destruct (Nat.ltb_spec str_digits_check_threshold d);
    destruct (Nat.ltb_spec lim d); try reflexivity; lia.
Qed.

(** Up to the threshold nothing is refused, whatever the limit. *)
Lemma exceeds_limit_small (lim d : nat) :
  (d <= str_digits_check_threshold)%nat -> exceeds_limit lim d = false.
Proof.
  unfold exceeds_limit; intros L.
  destruct (Nat.ltb_spec str_digits_check_threshold d); [lia|reflexivity].
Qed.

Lemma digits_of_digits (ds : text) :
  forallb Unicode.is_digit ds = true -> digits_of ds = ds.
Proof.
  destruct ds as [|c ds]; [reflexivity|]; cbn [forallb digits_of].
  intros [Dc _]%andb_true_iff.
  destruct (N.eqb_spec c 45) as [->|]; [vm_compute in Dc; discriminate|].
  destruct (N.eqb_spec c 43) as [->|]; [vm_compute in Dc; discriminate|].
  reflexivity.
Qed.

(** The digits [int] counts in a sign and digits are the digits. *)
Lemma digits_of_signed (sgn ds : text) (f : Z -> Z) :
  sign_prefix sgn f -> forallb Unicode.is_digit ds = true ->
  digits_of (sgn ++ ds) = ds.
Proof.
  intros S D; destruct S; [now apply digits_of_digits|reflexivity..].
Qed.

End PyIntFacts.

(** * Properties of the decoder *)

Module Utf8Facts.
Import Utf8.
Open Scope N_scope.

Local Ltac Zify.zify_post_hook ::= Z.to_euclidean_division_equations.


Lemma is_scalar_iff (c : codepoint) :
  is_scalar c = true <-> c < 0xD800 \/ (0xDFFF < c /\ c < 0x110000).
Proof.
  unfold is_scalar.
  rewrite orb_true_iff, andb_true_iff, !N.ltb_lt; reflexivity.
Qed.



Ltac decide_ltb :=
  repeat match goal with
  | |- context [?x <? ?y] =>
      first [ replace (x <? y) with true by (symmetry; apply N.ltb_lt; lia)
            | replace (x <? y) with false by (symmetry; apply N.ltb_ge; lia) ]
  end.

Lemma decode_1 (b0 : N) (rest : list N) :
  b0 < 0x80 -> decode_N (b0 :: rest) = b0 :: decode_N rest.
Proof. intros; cbn [decode_N]; now decide_ltb. Qed.

Lemma decode_2 (b0 b1 : N) (rest : list N) :
  0xC2 <= b0 < 0xE0 -> is_cont b1 = true ->
  decode_N (b0 :: b1 :: rest) = cp2 b0 b1 :: decode_N rest.
Proof. intros ? C1; cbn [decode_N]; rewrite C1; now decide_ltb. Qed.

Lemma decode_3 (b0 b1 b2 : N) (rest : list N) :
  0xE0 <= b0 < 0xF0 -> second_of_3 b0 b1 = true -> is_cont b2 = true ->
  decode_N (b0 :: b1 :: b2 :: rest) = cp3 b0 b1 b2 :: decode_N rest.
Proof. intros ? C1 C2; cbn [decode_N]; rewrite C1, C2; now decide_ltb. Qed.

Lemma decode_4 (b0 b1 b2 b3 : N) (rest : list N) :
  0xF0 <= b0 < 0xF5 -> second_of_4 b0 b1 = true -> is_cont b2 = true ->
  is_cont b3 = true ->
  decode_N (b0 :: b1 :: b2 :: b3 :: rest) = cp4 b0 b1 b2 b3 :: decode_N rest.
Proof.
  intros ? C1 C2 C3; cbn [decode_N]; rewrite C1, C2, C3; now decide_ltb.
Qed.

Lemma is_cont_intro (b : N) : 0x80 <= b < 0xC0 -> is_cont b = true.
Proof.
  intros; unfold is_cont; apply andb_true_iff.
  split; [apply N.leb_le|apply N.ltb_lt]; lia.
Qed.

Lemma second_of_3_intro (b0 b1 : N) :
  0x80 <= b1 < 0xC0 -> (b0 = 0xE0 -> 0xA0 <= b1) -> (b0 = 0xED -> b1 < 0xA0) ->
  second_of_3 b0 b1 = true.
Proof.
  intros B L H; unfold second_of_3; rewrite is_cont_intro by assumption.
  destruct (N.ltb_spec b1 0xA0); destruct (N.eqb_spec b0 0xE0);
    destruct (N.eqb_spec b0 0xED); try reflexivity; lia.
Qed.

Lemma second_of_4_intro (b0 b1 : N) :
  0x80 <= b1 < 0xC0 -> (b0 = 0xF0 -> 0x90 <= b1) -> (b0 = 0xF4 -> b1 < 0x90) ->
  second_of_4 b0 b1 = true.
Proof.
  intros B L H; unfold second_of_4; rewrite is_cont_intro by assumption.
  destruct (N.ltb_spec b1 0x90); destruct (N.eqb_spec b0 0xF0);
    destruct (N.eqb_spec b0 0xF4); try reflexivity; lia.
Qed.

(** A well-formed sequence decodes to the scalar value it encodes. *)
Lemma decode_encode_cp (c : codepoint) (rest : list N) :
  is_scalar c = true ->
  decode_N (encode_cp c ++ rest) = c :: decode_N rest.
Proof.
  intros S; apply is_scalar_iff in S.
  unfold encode_cp.
  destruct (N.ltb_spec c 0x80) as [L1|L1]; [now apply decode_1|].
  destruct (N.ltb_spec c 0x800) as [L2|L2].
  { cbn [app]; rewrite decode_2.
    - f_equal; unfold cp2; lia.
    - lia.
    - apply is_cont_intro; lia. }
  destruct (N.ltb_spec c 0x10000) as [L3|L3].
  { cbn [app]; rewrite decode_3.
    - f_equal; unfold cp3; lia.
    - lia.
    - apply second_of_3_intro; lia.
    - apply is_cont_intro; lia. }
  cbn [app]; rewrite decode_4.
  - f_equal; unfold cp4; lia.
  - lia.
  - apply second_of_4_intro; lia.
  - apply is_cont_intro; lia.
  - apply is_cont_intro; lia.
Qed.

Lemma decode_encode (t : text) :
  forallb is_scalar t = true -> decode_N (encode_N t) = t.
Proof.
  induction t as [|c t IH]; [reflexivity|]; cbn [forallb encode_N flat_map].
  intros [Sc St]%andb_true_iff.
  fold (encode_N t); rewrite decode_encode_cp, IH; auto.
Qed.

(** ASCII bytes decode to themselves. *)
Lemma decode_ascii (bs : list N) :
  forallb (fun b => b <? 0x80) bs = true -> decode_N bs = bs.
Proof.
  induction bs as [|b bs IH]; [reflexivity|]; cbn [forallb decode_N].
  intros [-> Hbs]%andb_true_iff; now rewrite IH.
Qed.






End Utf8Facts.

(** * The announcement lines and the patterns *)

Module PatternFacts.
Import Re ReFacts PyIntFacts.

(** [\d+] takes a whole run of digits that ends the integer. *)
Lemma plus_digits_final (ds post s1 : text) :
  is_digits ds -> ends_integer post = true ->
  rmatch (Plus Unicode.is_digit) (ds ++ post)
    (fun s2 => Some (firstn (List.length s1 - List.length s2) s1))
  = Some (firstn (List.length s1 - List.length post) s1).
Proof.
  intros [N D] E; destruct ds as [|d ds]; [congruence|].
  simpl in D; apply andb_true_iff in D as [Dd D].
  unfold Plus; cbn [rmatch app]; rewrite Dd.
  apply star_greedy; [assumption|].
  now rewrite star_stop by exact E.
Qed.

Lemma integer_group_final (sgn ds post : text) (f : Z -> Z) :
  sign_prefix sgn f -> is_digits ds -> ends_integer post = true ->
  rmatch (p_group1 _RE_LSBEXT) (sgn ++ ds ++ post)
    (fun s2 => Some (firstn (List.length (sgn ++ ds ++ post) - List.length s2)
                       (sgn ++ ds ++ post)))
  = Some (sgn ++ ds).
Proof.
  intros S D E.
  assert (F : firstn (List.length (sgn ++ ds ++ post) - List.length post)
                (sgn ++ ds ++ post) = sgn ++ ds)
    by (rewrite app_assoc; apply firstn_length_diff).
  cbn [_RE_LSBEXT p_group1 rmatch].
  destruct S as [| |].
  - destruct ds as [|d ds]; [destruct D; congruence|].
    assert (Dd : Unicode.is_digit d = true)
      by (destruct D as [_ D]; simpl in D; now apply andb_true_iff in D).
    cbn [app]; rewrite (digit_not_sign _ Dd).
    change (d :: ds ++ post) with ((d :: ds) ++ post).
    rewrite plus_digits_final by assumption.
    exact (f_equal Some F).
  - change (lit "+") with [43%N]; cbn [app].
    change (sign_class 43%N) with true; cbv iota.
    rewrite plus_digits_final by assumption.
    exact (f_equal Some F).
  - change (lit "-") with [45%N]; cbn [app].
    change (sign_class 45%N) with true; cbv iota.
    rewrite plus_digits_final by assumption.
    exact (f_equal Some F).
Qed.

Lemma match_at_lsbExt_line ws sgn f ds post :
  forallb Unicode.is_space ws = true -> sign_prefix sgn f -> is_digits ds ->
  ends_integer post = true ->
  match_at _RE_LSBEXT
    (lit "Building an IIR filter faithful to" ++ ws ++ lit "lsbExt="
     ++ sgn ++ ds ++ post) = Some (sgn ++ ds).
Proof.
  intros W S D E.
  unfold match_at; cbn [_RE_LSBEXT p_prefix rmatch].
  rewrite strip_app.
  apply star_greedy; [assumption|].
  rewrite star_stop by reflexivity.
  rewrite strip_app.
  exact (@integer_group_final sgn ds post f S D E).
Qed.

Lemma lit_H_bare_split :
  lit "Filter worst-case peak gain: H=" =
  lit "Filter worst-case peak gain" ++ lit ":" ++ [32%N] ++ lit "H=".
Proof. reflexivity. Qed.

Lemma match_at_H_bare_1_0 (post : text) :
  ends_number post = true ->
  match_at _RE_H (line_H_bare (lit "1.0") ++ post) = Some (lit "1.0").
Proof.
  intros E.
  unfold match_at, line_H_bare; cbn [_RE_H p_prefix p_group1 rmatch].
  rewrite lit_H_bare_split, <- !app_assoc.
  replace (strip (lit "Computed filter worst-case peak gain")
             (lit "Filter worst-case peak gain" ++
              lit ":" ++ [32%N] ++ lit "H=" ++ lit "1.0" ++ post))
    with (@None text) by reflexivity.
  rewrite !strip_app.
  change ([32%N] ++ lit "H=" ++ lit "1.0" ++ post)
    with ([32%N] ++ (lit "H=" ++ lit "1.0" ++ post)).
  rewrite star_greedy with (x := lit "1.0"); [reflexivity|reflexivity|].
  rewrite star_stop by reflexivity.
  rewrite strip_app.
  change (lit "1.0") with [49%N; 46%N; 48%N].
  unfold _FLOAT_RE, Plus; cbn [rmatch app].
  change (sign_class 49%N) with false; cbv iota.
  change (Unicode.is_digit 49%N) with true; cbv iota.
  rewrite star_stop by reflexivity.
  change (strip (lit ".") (46%N :: 48%N :: post)) with (Some (48%N :: post)).
  cbv iota.
  cbn [star]; change (Unicode.is_digit 48%N) with true; cbv iota.
  pose proof (firstn_length_diff [49%N; 46%N; 48%N] post) as F.
  destruct post as [|c post].
  - reflexivity.
  - simpl in E; apply negb_true_iff, orb_false_iff in E as [Dc Ec].
    cbn [star]; rewrite Dc, Ec.
    exact (f_equal Some F).
Qed.

End PatternFacts.

(** * The run, path by path *)

Module RunFacts.
Import Re ReFacts PyIntFacts PatternFacts.

Section Run.
Variable py_float : Type.
Variable float_of_str : text -> py_float.
Variable float_repr : py_float -> text.

Implicit Types (w : world py_float) (a : arguments py_float)
               (so se : option bytes).

(** *** The command *)

Lemma build_cmd_eq w (exe : text) a :
  build_cmd w exe a =
  if ints_fit w a then ([], inr (command_line exe a))
  else ([], inl ValueError).
Proof.
  unfold build_cmd, ints_fit, fmt_int, command_line, bind, ret, raise.
  destruct (str_refuses w (generateFigures a)); [reflexivity|].
  destruct (str_refuses w (lsbIn a)); [reflexivity|].
  destruct (str_refuses w (lsbOut a)); [reflexivity|].
  destruct (str_refuses w (loglevel a)); reflexivity.
Qed.

Lemma process_outcome_eq w a :
  process_outcome w a =
  if ints_fit w a
  then Some (subprocess_run w
               (command_line (_resolve_flopoco_exe w (flopoco_exe a)) a)
               (timeout_s a))
  else None.
Proof.
  unfold process_outcome; rewrite build_cmd_eq.
  now destruct (ints_fit w a).
Qed.

(** A process was run: the integers could be formatted. *)
Lemma process_outcome_Some w a (o : run_outcome) :
  process_outcome w a = Some o ->
  ints_fit w a = true /\
  subprocess_run w (command_line (_resolve_flopoco_exe w (flopoco_exe a)) a)
    (timeout_s a) = o.
Proof.
  rewrite process_outcome_eq.
  destruct (ints_fit w a); [|discriminate].
  intros [= <-]; auto.
Qed.

(** No command, no process: the call ends at once. *)
Lemma run_not_built w a :
  ints_fit w a = false ->
  run_fixiir_and_parse_metrics float_of_str float_repr w a =
  ([], inl ValueError).
Proof.
  intros F; unfold run_fixiir_and_parse_metrics.
  rewrite build_cmd_eq, F; reflexivity.
Qed.

Lemma run_timeout w a so se :
  process_outcome w a = Some (TimeoutExpired so se) ->
  trace (run_fixiir_and_parse_metrics float_of_str float_repr w a) =
    EvRun (command_line (_resolve_flopoco_exe w (flopoco_exe a)) a)
      (timeout_s a)
    :: trace (on_timeout float_of_str float_repr w a so se) /\
  result (run_fixiir_and_parse_metrics float_of_str float_repr w a) =
    result (on_timeout float_of_str float_repr w a so se).
Proof.
  intros [F O]%process_outcome_Some.
  unfold run_fixiir_and_parse_metrics.
  rewrite build_cmd_eq, F; unfold run_process, bind; rewrite O.
  now destruct (on_timeout float_of_str float_repr w a so se).
Qed.

Lemma run_completed w a rc so se :
  process_outcome w a = Some (Completed rc so se) ->
  trace (run_fixiir_and_parse_metrics float_of_str float_repr w a) =
    EvRun (command_line (_resolve_flopoco_exe w (flopoco_exe a)) a)
      (timeout_s a)
    :: trace (on_completed float_of_str w a rc so se) /\
  result (run_fixiir_and_parse_metrics float_of_str float_repr w a) =
    result (on_completed float_of_str w a rc so se).
Proof.
  intros [F O]%process_outcome_Some.
  unfold run_fixiir_and_parse_metrics.
  rewrite build_cmd_eq, F; unfold run_process, bind; rewrite O.
  now destruct (on_completed float_of_str w a rc so se).
Qed.

Lemma run_not_found w a :
  process_outcome w a = Some FileNotFoundError ->
  run_fixiir_and_parse_metrics float_of_str float_repr w a =
  ([EvRun (command_line (_resolve_flopoco_exe w (flopoco_exe a)) a)
      (timeout_s a)],
   inl (RuntimeError
          (msg_not_found (_resolve_flopoco_exe w (flopoco_exe a))))).
Proof.
  intros [F O]%process_outcome_Some.
  unfold run_fixiir_and_parse_metrics.
  rewrite build_cmd_eq, F; unfold run_process, bind; rewrite O.
  reflexivity.
Qed.

Lemma run_raised w a (name : text) :
  process_outcome w a = Some (Raised name) ->
  run_fixiir_and_parse_metrics float_of_str float_repr w a =
  ([EvRun (command_line (_resolve_flopoco_exe w (flopoco_exe a)) a)
      (timeout_s a)],
   inl (OtherException name)).
Proof.
  intros [F O]%process_outcome_Some.
  unfold run_fixiir_and_parse_metrics.
  rewrite build_cmd_eq, F; unfold run_process, bind; rewrite O.
  reflexivity.
Qed.

(** *** [int] on the lsbExt group *)

Lemma int_refuses_short w (g : text) :
  (List.length (PyInt.digits_of g) <=? PyInt.str_digits_check_threshold)%nat
  = true ->
  int_refuses w g = false.
Proof.
  intros L; apply PyIntFacts.exceeds_limit_small; now apply Nat.leb_le.
Qed.

(** What [int] does with the group the lsbExt pattern captured: the digits
    are well formed, so only their number can make it fail. *)
Lemma to_int_group w (log gl : text) :
  search _RE_LSBEXT log = Some gl ->
  exists z,
    PyInt.int_of_str gl = Some z /\
    to_int w gl =
    ([], if int_refuses w gl then inl ValueError else inr z).
Proof.
  intros EL.
  destruct (search_lsbExt_int _ EL) as (sgn & f & ds & _ & _ & _ & Ez).
  exists (f (decimal_value ds)); split; [assumption|].
  unfold to_int; rewrite Ez.
  now destruct (int_refuses w gl).
Qed.

Lemma on_timeout_eq w a so se :
  on_timeout float_of_str float_repr w a so se =
  ([EvSearch py_float MetricH (make_raw_log so se);
    EvSearch py_float MetricHeps (make_raw_log so se);
    EvSearch py_float MetricLsbExt (make_raw_log so se)],
   match search _RE_H (make_raw_log so se),
         search _RE_LSBEXT (make_raw_log so se) with
   | Some gH, Some gl =>
       match result (to_int w gl) with
       | inr z =>
           inr (mkFixIIRMetrics (float_of_str gH)
                  (option_map float_of_str
                     (search _RE_HEPS (make_raw_log so se)))
                  z (make_raw_log so se) true)
       | inl e => inl e
       end
   | _, _ =>
       inl (RuntimeError
              (msg_timeout float_repr (timeout_s a) (make_raw_log so se)))
   end).
Proof.
  unfold on_timeout, re_search, bind; cbn [pattern_of].
  destruct (search _RE_H (make_raw_log so se)) as [gH|];
    destruct (search _RE_LSBEXT (make_raw_log so se)) as [gl|] eqn:EL;
    try reflexivity.
  destruct (to_int_group w _ EL) as (z & _ & ->).
  unfold result; cbn [snd]; now destruct (int_refuses w gl).
Qed.

Lemma on_completed_nonzero w a rc so se :
  rc <> 0%Z ->
  on_completed float_of_str w a rc so se =
  ([], inl (RuntimeError (msg_exit rc (make_raw_log so se)))).
Proof.
  intros N; unfold on_completed.
  destruct (Z.eqb_spec rc 0); [contradiction|reflexivity].
Qed.

Lemma on_completed_zero w a so se :
  on_completed float_of_str w a 0 so se =
  match chosen_H float_of_str (search _RE_H (make_raw_log so se))
          (fallback_H a) with
  | None =>
      ([EvSearch py_float MetricH (make_raw_log so se)],
       inl (RuntimeError (msg_no_H (make_raw_log so se))))
  | Some h =>
      ([EvSearch py_float MetricH (make_raw_log so se);
        EvSearch py_float MetricHeps (make_raw_log so se);
        EvSearch py_float MetricLsbExt (make_raw_log so se)],
       match search _RE_LSBEXT (make_raw_log so se) with
       | None => inl (RuntimeError (msg_no_lsbExt (make_raw_log so se)))
       | Some gl =>
           match result (to_int w gl) with
           | inr z =>
               inr (mkFixIIRMetrics h
                      (option_map float_of_str
                         (search _RE_HEPS (make_raw_log so se)))
                      z (make_raw_log so se) false)
           | inl e => inl e
           end
       end)
  end.
Proof.
  unfold on_completed, re_search, bind, chosen_H;
    cbn [pattern_of negb Z.eqb].
  destruct (search _RE_H (make_raw_log so se)) as [gH|];
    [|destruct (fallback_H a) as [f|]]; cbn;
    try (destruct (search _RE_LSBEXT (make_raw_log so se)) as [gl|] eqn:EL;
         cbn;
         [destruct (to_int_group w _ EL) as (z & _ & ->);
          unfold result; cbn [snd]; destruct (int_refuses w gl)|]);
    reflexivity.
Qed.

(** *** Timeout *)

Lemma timeout_found w a so se gH gl :
  process_outcome w a = Some (TimeoutExpired so se) ->
  search _RE_H (make_raw_log so se) = Some gH ->
  search _RE_LSBEXT (make_raw_log so se) = Some gl ->
  exists z,
    PyInt.int_of_str gl = Some z /\
    result (run_fixiir_and_parse_metrics float_of_str float_repr w a) =
    if int_refuses w gl then inl ValueError
    else
      inr (mkFixIIRMetrics (float_of_str gH)
             (option_map float_of_str (search _RE_HEPS (make_raw_log so se)))
             z (make_raw_log so se) true).
Proof.
  intros O EH EL.
  destruct (run_timeout w a O) as [_ ->].
  rewrite on_timeout_eq; unfold result at 1; cbn [snd]; rewrite EH, EL.
  destruct (to_int_group w _ EL) as (z & Ez & ->).
  exists z; split; [assumption|].
  unfold result; cbn [snd]; now destruct (int_refuses w gl).
Qed.

Lemma timeout_missing w a so se :
  process_outcome w a = Some (TimeoutExpired so se) ->
  search _RE_H (make_raw_log so se) = None \/
  search _RE_LSBEXT (make_raw_log so se) = None ->
  result (run_fixiir_and_parse_metrics float_of_str float_repr w a) =
  inl (RuntimeError
         (msg_timeout float_repr (timeout_s a) (make_raw_log so se))).
Proof.
  intros O E.
  destruct (run_timeout w a O) as [_ ->].
  rewrite on_timeout_eq; unfold result; cbn [snd].
  destruct E as [-> | ->]; [reflexivity|].
  now destruct (search _RE_H (make_raw_log so se)).
Qed.

Lemma timeout_trace w a so se :
  process_outcome w a = Some (TimeoutExpired so se) ->
  searches (trace (run_fixiir_and_parse_metrics float_of_str float_repr w a)) =
  [(MetricH, make_raw_log so se); (MetricHeps, make_raw_log so se);
   (MetricLsbExt, make_raw_log so se)].
Proof.
  intros O; destruct (run_timeout w a O) as [-> _].
  now rewrite on_timeout_eq.
Qed.

(** A timeout that returns found both required metrics. *)
Lemma timeout_returns_inv w a so se r :
  process_outcome w a = Some (TimeoutExpired so se) ->
  result (run_fixiir_and_parse_metrics float_of_str float_repr w a) = inr r ->
  exists gH gl z,
    search _RE_H (make_raw_log so se) = Some gH /\
    search _RE_LSBEXT (make_raw_log so se) = Some gl /\
    PyInt.int_of_str gl = Some z /\
    int_refuses w gl = false /\
    r = mkFixIIRMetrics (float_of_str gH)
          (option_map float_of_str (search _RE_HEPS (make_raw_log so se)))
          z (make_raw_log so se) true.
Proof.
  intros O Er.
  destruct (search _RE_H (make_raw_log so se)) as [gH|] eqn:EH;
    [destruct (search _RE_LSBEXT (make_raw_log so se)) as [gl|] eqn:EL|].
  - destruct (timeout_found w a O EH EL) as (z & Ez & E).
    rewrite E in Er.
    destruct (int_refuses w gl) eqn:R; [discriminate|].
    injection Er as <-; exists gH, gl, z; auto.
  - rewrite (timeout_missing w a O (or_intror EL)) in Er; discriminate.
  - rewrite (timeout_missing w a O (or_introl EH)) in Er; discriminate.
Qed.

(** *** Clean exit *)

Lemma clean_found w a so se h gl :
  process_outcome w a = Some (Completed 0 so se) ->
  chosen_H float_of_str (search _RE_H (make_raw_log so se)) (fallback_H a)
  = Some h ->
  search _RE_LSBEXT (make_raw_log so se) = Some gl ->
  exists z,
    PyInt.int_of_str gl = Some z /\
    result (run_fixiir_and_parse_metrics float_of_str float_repr w a) =
    if int_refuses w gl then inl ValueError
    else
      inr (mkFixIIRMetrics h
             (option_map float_of_str (search _RE_HEPS (make_raw_log so se)))
             z (make_raw_log so se) false).
Proof.
  intros O EH EL.
  destruct (run_completed w a O) as [_ ->].
  rewrite on_completed_zero, EH; unfold result at 1; cbn [snd]; rewrite EL.
  destruct (to_int_group w _ EL) as (z & Ez & ->).
  exists z; split; [assumption|].
  unfold result; cbn [snd]; now destruct (int_refuses w gl).
Qed.

Lemma clean_no_H w a so se :
  process_outcome w a = Some (Completed 0 so se) ->
  chosen_H float_of_str (search _RE_H (make_raw_log so se)) (fallback_H a)
  = None ->
  result (run_fixiir_and_parse_metrics float_of_str float_repr w a) =
  inl (RuntimeError (msg_no_H (make_raw_log so se))).
Proof.
  intros O EH.
  destruct (run_completed w a O) as [_ ->].
  now rewrite on_completed_zero, EH.
Qed.

Lemma clean_no_lsbExt w a so se h :
  process_outcome w a = Some (Completed 0 so se) ->
  chosen_H float_of_str (search _RE_H (make_raw_log so se)) (fallback_H a)
  = Some h ->
  search _RE_LSBEXT (make_raw_log so se) = None ->
  result (run_fixiir_and_parse_metrics float_of_str float_repr w a) =
  inl (RuntimeError (msg_no_lsbExt (make_raw_log so se))).
Proof.
  intros O EH EL.
  destruct (run_completed w a O) as [_ ->].
  rewrite on_completed_zero, EH; unfold result; cbn [snd]; now rewrite EL.
Qed.

(** A clean exit that returns went through all three steps. *)
Lemma clean_returns_inv w a so se r :
  process_outcome w a = Some (Completed 0 so se) ->
  result (run_fixiir_and_parse_metrics float_of_str float_repr w a) = inr r ->
  exists h gl z,
    chosen_H float_of_str (search _RE_H (make_raw_log so se)) (fallback_H a)
    = Some h /\
    search _RE_LSBEXT (make_raw_log so se) = Some gl /\
    PyInt.int_of_str gl = Some z /\
    int_refuses w gl = false /\
    r = mkFixIIRMetrics h
          (option_map float_of_str (search _RE_HEPS (make_raw_log so se)))
          z (make_raw_log so se) false.
Proof.
  intros O Er.
  destruct (chosen_H float_of_str (search _RE_H (make_raw_log so se))
              (fallback_H a)) as [h|] eqn:C;
    [destruct (search _RE_LSBEXT (make_raw_log so se)) as [gl|] eqn:EL|].
  - destruct (clean_found w a O C EL) as (z & Ez & E).
    rewrite E in Er.
    destruct (int_refuses w gl) eqn:R; [discriminate|].
    injection Er as <-; exists h, gl, z; auto.
  - rewrite (clean_no_lsbExt w a O C EL) in Er; discriminate.
  - rewrite (clean_no_H w a O C) in Er; discriminate.
Qed.


Lemma nonzero_trace w a rc so se :
  process_outcome w a = Some (Completed rc so se) -> rc <> 0%Z ->
  trace (run_fixiir_and_parse_metrics float_of_str float_repr w a) =
  [EvRun (command_line (_resolve_flopoco_exe w (flopoco_exe a)) a)
     (timeout_s a)]
  /\
  result (run_fixiir_and_parse_metrics float_of_str float_repr w a) =
  inl (RuntimeError (msg_exit rc (make_raw_log so se))).
Proof.
  intros O N; destruct (run_completed w a O) as [-> ->].
  now rewrite on_completed_nonzero.
Qed.

(** *** The calls of a run *)

Lemma spawns_nil (t : list (event py_float)) :
  spawns t = [] -> forall cmd timeout, ~ In (EvRun cmd timeout) t.
Proof.
  induction t as [|e t IH]; intros S cmd timeout; [intros []|].
  destruct e as [c o|m subject]; [discriminate S|].
  intros [I|I]; [discriminate I|].
  exact (IH S cmd timeout I).
Qed.

(** A call either spawns the process first and then only searches, three
    times at most, or it has no command and does nothing. *)
Lemma run_trace w a :
  (ints_fit w a = true /\
   exists rest,
     trace (run_fixiir_and_parse_metrics float_of_str float_repr w a)
     = EvRun (command_line (_resolve_flopoco_exe w (flopoco_exe a)) a)
         (timeout_s a) :: rest /\
     spawns rest = [] /\ List.length (searches rest) <= 3) \/
  (ints_fit w a = false /\
   run_fixiir_and_parse_metrics float_of_str float_repr w a
   = ([], inl ValueError)).
Proof.
  destruct (ints_fit w a) eqn:F;
    [left|right; split; [reflexivity|now apply run_not_built]].
  split; [reflexivity|].
  destruct (process_outcome w a) as [o|] eqn:O;
    [|rewrite process_outcome_eq, F in O; discriminate].
  destruct o as [rc so se|so se| |name].
  - destruct (run_completed w a O) as [T _].
    rewrite T; clear T.
    destruct (Z.eq_dec rc 0) as [->|N].
    + rewrite on_completed_zero.
      destruct (chosen_H _ _ _); cbn;
        (eexists; split; [reflexivity|split; [reflexivity|cbn; lia]]).
    + rewrite on_completed_nonzero by assumption; cbn.
      eexists; split; [reflexivity|split; [reflexivity|cbn; lia]].
  - destruct (run_timeout w a O) as [T _].
    rewrite T, on_timeout_eq; cbn.
    eexists; split; [reflexivity|split; [reflexivity|cbn; lia]].
  - rewrite (run_not_found w a O); cbn.
    eexists; split; [reflexivity|split; [reflexivity|cbn; lia]].
  - rewrite (run_raised w a O); cbn.
    eexists; split; [reflexivity|split; [reflexivity|cbn; lia]].
Qed.

End Run.
End RunFacts.

(** * The claims about [run_fixiir_and_parse_metrics] *)

Import Re ReFacts PyIntFacts PatternFacts RunFacts.

Lemma line_lsbExt_split (num : text) :
  line_lsbExt num =
  lit "Building an IIR filter faithful to" ++ [32%N] ++ lit "lsbExt="
  ++ [] ++ num.
Proof. reflexivity. Qed.

(** The lsbExt line with a plain number is matched, and group 1 is the
    number. *)
Lemma match_at_line_lsbExt (sgn ds post : text) (f : Z -> Z) :
  sign_prefix sgn f -> is_digits ds -> ends_integer post = true ->
  match_at _RE_LSBEXT (line_lsbExt (sgn ++ ds) ++ post) = Some (sgn ++ ds).
Proof.
  intros S D E.
  unfold line_lsbExt.
  change (lit "Building an IIR filter faithful to lsbExt=")
    with (lit "Building an IIR filter faithful to" ++ [32%N] ++ lit "lsbExt=").
  rewrite <- !app_assoc.
  now apply match_at_lsbExt_line with f.
Qed.

Lemma is_digits_4 : is_digits (lit "4").
Proof. split; [discriminate|reflexivity]. Qed.

Lemma is_digits_3 : is_digits (lit "3").
Proof. split; [discriminate|reflexivity]. Qed.

Section Claims.
Variable py_float : Type.
Variable float_of_str : text -> py_float.
Variable float_repr : py_float -> text.

Implicit Types (w : world py_float) (a : arguments py_float)
               (so se : option bytes).

(** C1 (amended).  A call that ends in a subprocess timeout: when both the H
    pattern and the lsbExt pattern match the partial decoded log, it returns
    the metrics with [timedOut = true], [H] and [lsbExt] read from the two
    matches and [Heps] set exactly when its pattern matches, unless the
    lsbExt match has more digits than the interpreter lets [int] convert,
    in which case the call fails with [ValueError]; when either of the two
    does not match, it fails with the timeout error, whose message ends with
    the partial log.  In particular, when the first H announcement of the
    log is [Filter worst-case peak gain: H=1.0] and the first lsbExt
    announcement is [Building an IIR filter faithful to lsbExt=4], each
    number followed by a character that cannot continue it, the call returns
    [H = float(1.0)], [lsbExt = 4], [timedOut = true]. *)
Theorem timeout_recovery w a so se :
  process_outcome w a = Some (TimeoutExpired so se) ->
  (forall gH gl,
     search _RE_H (make_raw_log so se) = Some gH ->
     search _RE_LSBEXT (make_raw_log so se) = Some gl ->
     exists z,
       PyInt.int_of_str gl = Some z /\
       result (run_fixiir_and_parse_metrics float_of_str float_repr w a) =
       if int_refuses w gl then inl ValueError
       else
         inr (mkFixIIRMetrics (float_of_str gH)
                (option_map float_of_str
                   (search _RE_HEPS (make_raw_log so se)))
                z (make_raw_log so se) true)) /\
  (search _RE_H (make_raw_log so se) = None \/
   search _RE_LSBEXT (make_raw_log so se) = None ->
   result (run_fixiir_and_parse_metrics float_of_str float_repr w a) =
   inl (RuntimeError
          (lit "FloPoCo timeout after " ++ fmt_timeout float_repr (timeout_s a)
           ++ lit "s while running FixIIR. Log:" ++ [NL]
           ++ make_raw_log so se))) /\
  (forall preH postH preL postL,
     make_raw_log so se = preH ++ line_H_bare (lit "1.0") ++ postH ->
     (forall j, j < List.length preH ->
                ~ occurs_at _RE_H (make_raw_log so se) j) ->
     ends_number postH = true ->
     make_raw_log so se = preL ++ line_lsbExt (lit "4") ++ postL ->
     (forall j, j < List.length preL ->
                ~ occurs_at _RE_LSBEXT (make_raw_log so se) j) ->
     ends_integer postL = true ->
     result (run_fixiir_and_parse_metrics float_of_str float_repr w a) =
     inr (mkFixIIRMetrics (float_of_str (lit "1.0"))
            (option_map float_of_str (search _RE_HEPS (make_raw_log so se)))
            4 (make_raw_log so se) true)).
Proof.
  intros O; split; [|split].
  - intros gH gl; now apply timeout_found.
  - now apply timeout_missing.
  - intros preH postH preL postL EH FH DH EL FL DL.
    assert (SH : search _RE_H (make_raw_log so se) = Some (lit "1.0")).
    { rewrite EH in FH |- *.
      apply search_after_prefix; [|assumption].
      now apply match_at_H_bare_1_0. }
    assert (SL : search _RE_LSBEXT (make_raw_log so se) = Some (lit "4")).
    { rewrite EL in FL |- *.
      apply search_after_prefix; [|assumption].
      exact (@match_at_line_lsbExt [] (lit "4") postL _
               sign_none is_digits_4 DL). }
    destruct (timeout_found float_of_str float_repr w a O SH SL)
      as (z & Ez & ->).
    rewrite int_refuses_short by reflexivity.
    vm_compute in Ez; now injection Ez as <-.
Qed.

(** C2.  A run with exit code zero: when the H pattern does not match and a
    fallback is given, every returned result has [H] equal to the fallback
    (and a result is returned as soon as the lsbExt pattern matches digits
    that [int] converts); when the H pattern does not match and no fallback
    is given, the call fails with an error whose message ends with the log;
    when the lsbExt pattern does not match, the call fails with an error
    whose message ends with the log, whatever the fallback. *)
Theorem clean_exit_fallback w a so se :
  process_outcome w a = Some (Completed 0 so se) ->
  (forall f,
     search _RE_H (make_raw_log so se) = None -> fallback_H a = Some f ->
     (forall r,
        result (run_fixiir_and_parse_metrics float_of_str float_repr w a)
        = inr r -> H r = f) /\
     (forall gl,
        search _RE_LSBEXT (make_raw_log so se) = Some gl ->
        int_refuses w gl = false ->
        exists r,
          result (run_fixiir_and_parse_metrics float_of_str float_repr w a)
          = inr r /\ H r = f /\ timedOut r = false)) /\
  (search _RE_H (make_raw_log so se) = None -> fallback_H a = None ->
   result (run_fixiir_and_parse_metrics float_of_str float_repr w a) =
   inl (RuntimeError
          (lit "Could not parse H from FloPoCo log. Log:" ++ [NL]
           ++ make_raw_log so se))) /\
  (search _RE_LSBEXT (make_raw_log so se) = None ->
   result (run_fixiir_and_parse_metrics float_of_str float_repr w a) =
   inl (RuntimeError
          (match chosen_H float_of_str (search _RE_H (make_raw_log so se))
                   (fallback_H a) with
           | Some _ => lit "Could not parse lsbExt from FloPoCo log. Log:"
           | None => lit "Could not parse H from FloPoCo log. Log:"
           end ++ [NL] ++ make_raw_log so se))).
Proof.
  intros O; split; [|split].
  - intros f EH Ef.
    assert (C : chosen_H float_of_str (search _RE_H (make_raw_log so se))
                  (fallback_H a) = Some f) by now rewrite EH.
    split.
    + intros r Er.
      destruct (clean_returns_inv float_of_str float_repr w a O Er)
        as (h & gl & z & Eh & _ & _ & _ & ->).
      cbn; congruence.
    + intros gl EL R.
      destruct (clean_found float_of_str float_repr w a O C EL)
        as (z & _ & E).
      rewrite R in E; rewrite E; eauto.
  - intros EH Ef; apply clean_no_H; [assumption|now rewrite EH].
  - intros EL.
    destruct (chosen_H float_of_str (search _RE_H (make_raw_log so se))
                (fallback_H a)) as [h|] eqn:C.
    + now apply clean_no_lsbExt with h.
    + now apply clean_no_H.
Qed.

(** C3.  A run whose process exits with a non-zero code fails with the error
    whose message holds that exit code and the whole decoded log, whatever
    the log is; no [search] is made (the only call recorded is the spawn), so
    no result is produced. *)
Theorem nonzero_exit_fails w a rc so se :
  process_outcome w a = Some (Completed rc so se) -> rc <> 0%Z ->
  result (run_fixiir_and_parse_metrics float_of_str float_repr w a) =
  inl (RuntimeError
         (lit "FloPoCo exited with code " ++ str_of_int rc ++ lit ". Log:"
          ++ [NL] ++ make_raw_log so se)) /\
  searches (trace (run_fixiir_and_parse_metrics float_of_str float_repr w a))
  = [] /\
  trace (run_fixiir_and_parse_metrics float_of_str float_repr w a) =
  [EvRun (command_line (_resolve_flopoco_exe w (flopoco_exe a)) a)
     (timeout_s a)].
Proof.
  intros O N.
  destruct (nonzero_trace float_of_str float_repr w a O N) as [-> ->]; auto.
Qed.

(** C5.  A clean exit whose log holds both phrasings of the H announcement:
    there is a leftmost position where the H pattern occurs, [search] returns
    group 1 of the match at that position, and [H] of every returned result
    is the float read from it (a result is returned as soon as the lsbExt
    pattern matches digits that [int] converts); what the log holds further
    on plays no part. *)
Theorem H_first_occurrence w a so se :
  process_outcome w a = Some (Completed 0 so se) ->
  has_H_line (lit "Computed filter worst-case peak gain")
    (make_raw_log so se) ->
  has_H_line (lit "Filter worst-case peak gain") (make_raw_log so se) ->
  exists i g,
    first_occurrence _RE_H (make_raw_log so se) i /\
    match_at _RE_H (skipn i (make_raw_log so se)) = Some g /\
    search _RE_H (make_raw_log so se) = Some g /\
    (forall r,
       result (run_fixiir_and_parse_metrics float_of_str float_repr w a)
       = inr r -> H r = float_of_str g) /\
    (forall gl,
       search _RE_LSBEXT (make_raw_log so se) = Some gl ->
       int_refuses w gl = false ->
       exists r,
         result (run_fixiir_and_parse_metrics float_of_str float_repr w a)
         = inr r /\ H r = float_of_str g).
Proof.
  intros O (pre & w1 & g1 & post & E1 & O1 & _) _.
  assert (Oc : occurs_at _RE_H (make_raw_log so se) (List.length pre))
    by (rewrite E1; now apply occurs_at_contains with g1).
  destruct (first_occurrence_exists Oc) as (i & g & F & _ & M & S).
  assert (C : chosen_H float_of_str (search _RE_H (make_raw_log so se))
                (fallback_H a) = Some (float_of_str g)) by now rewrite S.
  exists i, g; repeat split; try apply F; auto.
  - intros r Er.
    destruct (clean_returns_inv float_of_str float_repr w a O Er)
      as (h & gl & z & Eh & _ & _ & _ & ->).
    cbn; congruence.
  - intros gl EL R.
    destruct (clean_found float_of_str float_repr w a O C EL)
      as (z & _ & E).
    rewrite R in E; rewrite E; eauto.
Qed.

(** C8.  A log without any Heps announcement, in either phrasing: on a clean
    exit and on a timeout alike, every returned result has [Heps = None],
    and the call returns as soon as [H] is available (parsed, or on a clean
    exit the fallback) and the lsbExt pattern matches digits that [int]
    converts. *)
Theorem Heps_optional w a so se :
  (forall i, ~ occurs_at _RE_HEPS (make_raw_log so se) i) ->
  (process_outcome w a = Some (Completed 0 so se) ->
   (forall r,
      result (run_fixiir_and_parse_metrics float_of_str float_repr w a)
      = inr r -> Heps r = None) /\
   (forall h gl,
      chosen_H float_of_str (search _RE_H (make_raw_log so se))
        (fallback_H a) = Some h ->
      search _RE_LSBEXT (make_raw_log so se) = Some gl ->
      int_refuses w gl = false ->
      exists r,
        result (run_fixiir_and_parse_metrics float_of_str float_repr w a)
        = inr r /\ Heps r = None)) /\
  (process_outcome w a = Some (TimeoutExpired so se) ->
   (forall r,
      result (run_fixiir_and_parse_metrics float_of_str float_repr w a)
      = inr r -> Heps r = None) /\
   (forall gH gl,
      search _RE_H (make_raw_log so se) = Some gH ->
      search _RE_LSBEXT (make_raw_log so se) = Some gl ->
      int_refuses w gl = false ->
      exists r,
        result (run_fixiir_and_parse_metrics float_of_str float_repr w a)
        = inr r /\ Heps r = None)).
Proof.
  intros A; apply search_None_occurs in A.
  split; intros O; split.
  - intros r Er.
    destruct (clean_returns_inv float_of_str float_repr w a O Er)
      as (h & gl & z & _ & _ & _ & _ & ->).
    cbn; now rewrite A.
  - intros h gl C EL R.
    destruct (clean_found float_of_str float_repr w a O C EL)
      as (z & _ & E).
    rewrite R in E; rewrite E.
    eexists; split; [reflexivity|cbn; now rewrite A].
  - intros r Er.
    destruct (timeout_returns_inv float_of_str float_repr w a O Er)
      as (gH & gl & z & _ & _ & _ & _ & ->).
    cbn; now rewrite A.
  - intros gH gl EH EL R.
    destruct (timeout_found float_of_str float_repr w a O EH EL)
      as (z & _ & E).
    rewrite R in E; rewrite E.
    eexists; split; [reflexivity|cbn; now rewrite A].
Qed.

(** C9 (amended).  A clean exit whose first lsbExt announcement is
    [Building an IIR filter faithful to lsbExt=-3], not followed by a further
    digit: every returned result has [lsbExt] equal to the integer [-3], and
    a result is returned as soon as [H] is available.  In general, a first
    announcement made of an optional sign and a non-empty run of digits is
    matched whole, and whenever the call returns, group 1 of the lsbExt match
    is an optional sign and a non-empty run of digits and [lsbExt] is the
    signed integer they denote. *)
Theorem lsbExt_signed_integer w a so se :
  process_outcome w a = Some (Completed 0 so se) ->
  (forall pre post,
     make_raw_log so se = pre ++ line_lsbExt (lit "-3") ++ post ->
     (forall j, j < List.length pre ->
                ~ occurs_at _RE_LSBEXT (make_raw_log so se) j) ->
     ends_integer post = true ->
     (forall r,
        result (run_fixiir_and_parse_metrics float_of_str float_repr w a)
        = inr r -> lsbExt r = (-3)%Z) /\
     (forall h,
        chosen_H float_of_str (search _RE_H (make_raw_log so se))
          (fallback_H a) = Some h ->
        exists r,
          result (run_fixiir_and_parse_metrics float_of_str float_repr w a)
          = inr r /\ lsbExt r = (-3)%Z)) /\
  (forall pre post sgn f ds,
     sign_prefix sgn f -> is_digits ds ->
     make_raw_log so se = pre ++ line_lsbExt (sgn ++ ds) ++ post ->
     (forall j, j < List.length pre ->
                ~ occurs_at _RE_LSBEXT (make_raw_log so se) j) ->
     ends_integer post = true ->
     search _RE_LSBEXT (make_raw_log so se) = Some (sgn ++ ds) /\
     forall r,
       result (run_fixiir_and_parse_metrics float_of_str float_repr w a)
       = inr r -> lsbExt r = f (decimal_value ds)) /\
  (forall r,
     result (run_fixiir_and_parse_metrics float_of_str float_repr w a)
     = inr r ->
     exists sgn f ds,
       search _RE_LSBEXT (make_raw_log so se) = Some (sgn ++ ds) /\
       sign_prefix sgn f /\ is_digits ds /\
       lsbExt r = f (decimal_value ds)).
Proof.
  intros O.
  assert (G : forall pre post sgn f ds,
     sign_prefix sgn f -> is_digits ds ->
     make_raw_log so se = pre ++ line_lsbExt (sgn ++ ds) ++ post ->
     (forall j, j < List.length pre ->
                ~ occurs_at _RE_LSBEXT (make_raw_log so se) j) ->
     ends_integer post = true ->
     search _RE_LSBEXT (make_raw_log so se) = Some (sgn ++ ds)).
  { intros pre post sgn f ds S D E F P.
    rewrite E in F |- *.
    apply search_after_prefix; [|assumption].
    now apply match_at_line_lsbExt with f. }
  assert (V : forall r sgn f ds,
     sign_prefix sgn f -> is_digits ds ->
     search _RE_LSBEXT (make_raw_log so se) = Some (sgn ++ ds) ->
     result (run_fixiir_and_parse_metrics float_of_str float_repr w a)
     = inr r -> lsbExt r = f (decimal_value ds)).
  { intros r sgn f ds S D EL Er.
    destruct (clean_returns_inv float_of_str float_repr w a O Er)
      as (h & gl & z & _ & EL' & Ez & _ & ->).
    rewrite EL in EL'; injection EL' as <-.
    rewrite (int_of_str_signed S D) in Ez; injection Ez as <-.
    reflexivity. }
  split; [|split].
  - intros pre post E F P.
    pose proof (G pre post _ _ _ sign_minus is_digits_3 E F P) as EL.
    split.
    + intros r Er.
      exact (V r _ _ _ sign_minus is_digits_3 EL Er).
    + intros h C.
      destruct (clean_found float_of_str float_repr w a O C EL)
        as (z & Ez & Er).
      rewrite int_refuses_short in Er by reflexivity.
      exists (mkFixIIRMetrics h
                (option_map float_of_str
                   (search _RE_HEPS (make_raw_log so se)))
                z (make_raw_log so se) false).
      split; [assumption|].
      exact (V _ _ _ _ sign_minus is_digits_3 EL Er).
  - intros pre post sgn f ds S D E F P.
    pose proof (G pre post sgn f ds S D E F P) as EL.
    split; [assumption|].
    intros r Er; exact (V r sgn f ds S D EL Er).
  - intros r Er.
    destruct (clean_returns_inv float_of_str float_repr w a O Er)
      as (h & gl & z & _ & EL & Ez & _ & E).
    destruct (search_lsbExt_int _ EL) as (sgn & f & ds & -> & S & D & Ez').
    exists sgn, f, ds; repeat split; try apply D; auto.
    rewrite Ez in Ez'; injection Ez' as ->.
    now rewrite E.
Qed.


(** C6.  Whenever a command is handed to [subprocess.run], it is, in this
    order: the resolved executable, [generateFigures=<int>], [FixIIR],
    [coeffb=...], [coeffa=...], [lsbIn=<int>], [lsbOut=<int>],
    [loglevel=<int>], and then the extra arguments as given.  It is handed
    over, before anything else is done, for all arguments whose four integers
    the interpreter can format; for the others the f-strings raise
    [ValueError] and no command is built. *)
Theorem command_line_order w a :
  (forall cmd t,
     In (EvRun cmd t)
        (trace (run_fixiir_and_parse_metrics float_of_str float_repr w a)) ->
     cmd =
       [ _resolve_flopoco_exe w (flopoco_exe a);
         lit "generateFigures=" ++ str_of_int (generateFigures a);
         lit "FixIIR";
         lit "coeffb=" ++ coeffb a;
         lit "coeffa=" ++ coeffa a;
         lit "lsbIn=" ++ str_of_int (lsbIn a);
         lit "lsbOut=" ++ str_of_int (lsbOut a);
         lit "loglevel=" ++ str_of_int (loglevel a) ]
       ++ match extra_args a with Some l => l | None => [] end) /\
  (ints_fit w a = true ->
   exists rest,
     trace (run_fixiir_and_parse_metrics float_of_str float_repr w a) =
     EvRun
       ([ _resolve_flopoco_exe w (flopoco_exe a);
          lit "generateFigures=" ++ str_of_int (generateFigures a);
          lit "FixIIR";
          lit "coeffb=" ++ coeffb a;
          lit "coeffa=" ++ coeffa a;
          lit "lsbIn=" ++ str_of_int (lsbIn a);
          lit "lsbOut=" ++ str_of_int (lsbOut a);
          lit "loglevel=" ++ str_of_int (loglevel a) ]
        ++ match extra_args a with Some l => l | None => [] end)
       (timeout_s a)
     :: rest) /\
  (ints_fit w a = false ->
   run_fixiir_and_parse_metrics float_of_str float_repr w a
   = ([], inl ValueError)).
Proof.
  assert (E : command_line (_resolve_flopoco_exe w (flopoco_exe a)) a =
    [ _resolve_flopoco_exe w (flopoco_exe a);
      lit "generateFigures=" ++ str_of_int (generateFigures a);
      lit "FixIIR";
      lit "coeffb=" ++ coeffb a;
      lit "coeffa=" ++ coeffa a;
      lit "lsbIn=" ++ str_of_int (lsbIn a);
      lit "lsbOut=" ++ str_of_int (lsbOut a);
      lit "loglevel=" ++ str_of_int (loglevel a) ]
    ++ match extra_args a with Some l => l | None => [] end)
    by (unfold command_line, extend_extra;
        destruct (extra_args a) as [[|x l]|]; reflexivity).
  rewrite <- E.
  destruct (run_trace float_of_str float_repr w a) as [[F T]|[F T]].
  - split; [|split; [|congruence]].
    + intros cmd t I; destruct T as (rest & T & S & _); rewrite T in I.
      destruct I as [[= <- _]|I]; [reflexivity|].
      exfalso; apply (spawns_nil _ S _ _ I).
    + intros _; destruct T as (rest & -> & _); eauto.
  - rewrite T; split; [intros cmd t []|split; [congruence|reflexivity]].
Qed.

(** C7 (amended).  The resolved executable is never the empty string.  An
    explicitly given non-empty path is used as it is, whatever the search
    path holds; when no path or the empty string is given, the [flopoco]
    found on the search path is used; when there is none, it is
    [./build/flopoco]. *)
Theorem executable_resolution w (exe : option text) :
  _resolve_flopoco_exe w exe <> [] /\
  (forall p, exe = Some p -> p <> [] -> _resolve_flopoco_exe w exe = p) /\
  (forall found,
     exe = None \/ exe = Some [] ->
     which w (lit "flopoco") = Some found -> found <> [] ->
     _resolve_flopoco_exe w exe = found) /\
  (exe = None \/ exe = Some [] ->
   which w (lit "flopoco") = None \/ which w (lit "flopoco") = Some [] ->
   _resolve_flopoco_exe w exe = lit "./build/flopoco").
Proof.
  unfold _resolve_flopoco_exe; split; [|split; [|split]].
  - destruct exe as [[|c p]|]; cbn [truthy]; try discriminate;
      destruct (which w (lit "flopoco")) as [[|c f]|]; cbn [truthy];
      discriminate.
  - intros p -> N; destruct p; [congruence|reflexivity].
  - intros found [-> | ->] -> N; cbn [truthy]; destruct found;
      try congruence; reflexivity.
  - intros [-> | ->] [-> | ->]; reflexivity.
Qed.

End Claims.

(** * The claims on concrete runs *)

Lemma timeout_recovery_witness :
  process_outcome
    (Sample.world_of (TimeoutExpired (Some Sample.out_metrics) None))
    (Sample.with_timeout (lit "5.0"))
  = Some (TimeoutExpired (Some Sample.out_metrics) None) /\
  result
    (run_fixiir_and_parse_metrics Sample.of_str Sample.repr
       (Sample.world_of (TimeoutExpired (Some Sample.out_metrics) None))
       (Sample.with_timeout (lit "5.0")))
  = inr (mkFixIIRMetrics (Sample.of_str (lit "1.0")) None 4
           (make_raw_log (Some Sample.out_metrics) None) true).
Proof.
  split; [reflexivity|].
  destruct (@timeout_recovery Sample.float Sample.of_str Sample.repr
              (Sample.world_of (TimeoutExpired (Some Sample.out_metrics) None))
              (Sample.with_timeout (lit "5.0"))
              (Some Sample.out_metrics) None eq_refl) as (_ & _ & Ex).
  rewrite (Ex []
             (NL :: line_lsbExt (lit "4") ++ [NL; NL])
             (line_H_bare (lit "1.0") ++ [NL])
             [NL; NL]).
  - reflexivity.
  - reflexivity.
  - intros j Hj; inversion Hj.
  - reflexivity.
  - reflexivity.
  - apply no_occurrence_before; vm_compute; reflexivity.
  - reflexivity.
Defined.

Lemma timeout_bare_token_raises :
  contains (lit "Filter worst-case peak gain: H=1.0")
    (make_raw_log (Some Sample.out_bare_token) None) /\
  contains (lit "lsbExt=4")
    (make_raw_log (Some Sample.out_bare_token) None) /\
  process_outcome
    (Sample.world_of (TimeoutExpired (Some Sample.out_bare_token) None))
    (Sample.with_timeout (lit "5.0"))
  = Some (TimeoutExpired (Some Sample.out_bare_token) None) /\
  result
    (run_fixiir_and_parse_metrics Sample.of_str Sample.repr
       (Sample.world_of (TimeoutExpired (Some Sample.out_bare_token) None))
       (Sample.with_timeout (lit "5.0")))
  = inl (RuntimeError
           (lit "FloPoCo timeout after 5.0s while running FixIIR. Log:"
            ++ [NL] ++ make_raw_log (Some Sample.out_bare_token) None)).
Proof.
  split; [|split; [|split]].
  - exists [], (NL :: lit "lsbExt=4" ++ [NL; NL]); reflexivity.
  - exists (lit "Filter worst-case peak gain: H=1.0" ++ [NL]), [NL; NL];
      reflexivity.
  - reflexivity.
  - vm_compute; reflexivity.
Qed.

Lemma clean_exit_fallback_witness :
  process_outcome
    (Sample.world_of (Completed 0 (Some Sample.out_no_H) None))
    (Sample.with_fallback (lit "2.5"))
  = Some (Completed 0 (Some Sample.out_no_H) None) /\
  search _RE_H (make_raw_log (Some Sample.out_no_H) None) = None /\
  int_refuses (Sample.world_of (Completed 0 (Some Sample.out_no_H) None))
    (lit "4") = false /\
  exists r,
    result
      (run_fixiir_and_parse_metrics Sample.of_str Sample.repr
         (Sample.world_of (Completed 0 (Some Sample.out_no_H) None))
         (Sample.with_fallback (lit "2.5")))
    = inr r /\ H r = lit "2.5" /\ timedOut r = false.
Proof.
  split; [reflexivity|split; [reflexivity|split; [reflexivity|]]].
  destruct (@clean_exit_fallback Sample.float Sample.of_str Sample.repr
              (Sample.world_of (Completed 0 (Some Sample.out_no_H) None))
              (Sample.with_fallback (lit "2.5"))
              (Some Sample.out_no_H) None eq_refl) as (F & _ & _).
  destruct (F (lit "2.5") eq_refl eq_refl) as [_ R].
  exact (R (lit "4") eq_refl eq_refl).
Defined.

Lemma nonzero_exit_fails_witness :
  process_outcome
    (Sample.world_of (Completed 2 (Some Sample.out_failure) None))
    Sample.args
  = Some (Completed 2 (Some Sample.out_failure) None) /\
  2%Z <> 0%Z /\
  result
    (run_fixiir_and_parse_metrics Sample.of_str Sample.repr
       (Sample.world_of (Completed 2 (Some Sample.out_failure) None))
       Sample.args)
  = inl (RuntimeError
           (lit "FloPoCo exited with code 2. Log:" ++ [NL]
            ++ lit "boom" ++ [Utf8.REPLACEMENT; NL])) /\
  searches
    (trace
       (run_fixiir_and_parse_metrics Sample.of_str Sample.repr
          (Sample.world_of (Completed 2 (Some Sample.out_failure) None))
          Sample.args))
  = [].
Proof.
  split; [reflexivity|split; [discriminate|]].
  destruct (@nonzero_exit_fails Sample.float Sample.of_str Sample.repr
              (Sample.world_of (Completed 2 (Some Sample.out_failure) None))
              Sample.args 2 (Some Sample.out_failure) None eq_refl)
    as (R & S & _); [discriminate|].
  split; [exact R|exact S].
Defined.


Lemma has_H_line_computed_sample :
  has_H_line (lit "Computed filter worst-case peak gain")
    (make_raw_log (Some Sample.out_both_phrasings) None).
Proof.
  exists (line_H_bare (lit "2.5") ++ [NL]), (line_H_computed (lit "1.5")),
    (lit "1.5"), (NL :: line_lsbExt (lit "4") ++ [NL; NL]).
  split; [reflexivity|split].
  - exists (lit "Computed filter worst-case peak gain: H=").
    split; [reflexivity|split].
    + exists (lit "Computed filter worst-case peak gain"), (lit ": H=").
      split; [reflexivity|split; [left; reflexivity|]].
      exists (lit ":"), (lit " H="); split; [reflexivity|split; [reflexivity|]].
      exists (lit " "), (lit "H="); repeat split; reflexivity.
    + exists [], (lit "1.5"); split; [reflexivity|split; [left; reflexivity|]].
      exists (lit "1.5"), []; split; [reflexivity|split; [|left; reflexivity]].
      left.
      exists (lit "1"), (lit ".5"); split; [reflexivity|split].
      * exists (lit "1"), []; split; [reflexivity|split; [|reflexivity]].
        exists 49%N; split; reflexivity.
      * right; exists (lit "."), (lit "5"); repeat split; reflexivity.
  - exists (lit ": H=1.5"); reflexivity.
Qed.

Lemma has_H_line_bare_sample :
  has_H_line (lit "Filter worst-case peak gain")
    (make_raw_log (Some Sample.out_both_phrasings) None).
Proof.
  exists [], (line_H_bare (lit "2.5")), (lit "2.5"),
    (NL :: line_H_computed (lit "1.5") ++ NL :: line_lsbExt (lit "4")
        ++ [NL; NL]).
  split; [reflexivity|split].
  - exists (lit "Filter worst-case peak gain: H=").
    split; [reflexivity|split].
    + exists (lit "Filter worst-case peak gain"), (lit ": H=").
      split; [reflexivity|split; [right; reflexivity|]].
      exists (lit ":"), (lit " H="); split; [reflexivity|split; [reflexivity|]].
      exists (lit " "), (lit "H="); repeat split; reflexivity.
    + exists [], (lit "2.5"); split; [reflexivity|split; [left; reflexivity|]].
      exists (lit "2.5"), []; split; [reflexivity|split; [|left; reflexivity]].
      left.
      exists (lit "2"), (lit ".5"); split; [reflexivity|split].
      * exists (lit "2"), []; split; [reflexivity|split; [|reflexivity]].
        exists 50%N; split; reflexivity.
      * right; exists (lit "."), (lit "5"); repeat split; reflexivity.
  - exists (lit ": H=2.5"); reflexivity.
Qed.

Lemma H_first_occurrence_witness :
  process_outcome
    (Sample.world_of (Completed 0 (Some Sample.out_both_phrasings) None))
    Sample.args
  = Some (Completed 0 (Some Sample.out_both_phrasings) None) /\
  has_H_line (lit "Computed filter worst-case peak gain")
    (make_raw_log (Some Sample.out_both_phrasings) None) /\
  has_H_line (lit "Filter worst-case peak gain")
    (make_raw_log (Some Sample.out_both_phrasings) None) /\
  exists r,
    result
      (run_fixiir_and_parse_metrics Sample.of_str Sample.repr
         (Sample.world_of (Completed 0 (Some Sample.out_both_phrasings) None))
         Sample.args)
    = inr r /\ H r = lit "2.5".
Proof.
  split; [reflexivity|].
  split; [exact has_H_line_computed_sample|].
  split; [exact has_H_line_bare_sample|].
  destruct (@H_first_occurrence Sample.float Sample.of_str Sample.repr
              (Sample.world_of
                 (Completed 0 (Some Sample.out_both_phrasings) None))
              Sample.args (Some Sample.out_both_phrasings) None eq_refl
              has_H_line_computed_sample has_H_line_bare_sample)
    as (i & g & _ & _ & S & _ & R).
  destruct (R (lit "4") eq_refl eq_refl) as (r & Er & Hr).
  exists r; split; [exact Er|].
  rewrite Hr.
  assert (E : Some g = Some (lit "2.5")) by (rewrite <- S; reflexivity).
  now injection E as ->.
Defined.

Lemma command_line_order_witness :
  ints_fit (Sample.world_of FileNotFoundError)
    (Sample.with_extra [lit "target=Zynq7000"; lit "frequency=200"]) = true /\
  exists rest,
    trace
      (run_fixiir_and_parse_metrics Sample.of_str Sample.repr
         (Sample.world_of FileNotFoundError)
         (Sample.with_extra [lit "target=Zynq7000"; lit "frequency=200"]))
    = EvRun
        [ lit "./build/flopoco"; lit "generateFigures=0"; lit "FixIIR";
          lit "coeffb=0x1p+0"; lit "coeffa=0x1p-1"; lit "lsbIn=-12";
          lit "lsbOut=-12"; lit "loglevel=1"; lit "target=Zynq7000";
          lit "frequency=200" ]
        None
      :: rest.
Proof.
  split; [reflexivity|].
  exact (proj1 (proj2
           (@command_line_order Sample.float Sample.of_str Sample.repr
              (Sample.world_of FileNotFoundError)
              (Sample.with_extra
                 [lit "target=Zynq7000"; lit "frequency=200"])))
           eq_refl).
Defined.

Lemma executable_resolution_witness :
  lit "/opt/flopoco/bin/flopoco" <> [] /\
  _resolve_flopoco_exe
    (Sample.world_with (lit "/usr/bin/flopoco") FileNotFoundError)
    (Some (lit "/opt/flopoco/bin/flopoco"))
  = lit "/opt/flopoco/bin/flopoco" /\
  _resolve_flopoco_exe
    (Sample.world_with (lit "/usr/bin/flopoco") FileNotFoundError) None
  = lit "/usr/bin/flopoco" /\
  _resolve_flopoco_exe (Sample.world_of FileNotFoundError) None
  = lit "./build/flopoco".
Proof.
  split; [discriminate|split; [|split]].
  - apply (proj1 (proj2
      (executable_resolution
         (Sample.world_with (lit "/usr/bin/flopoco") FileNotFoundError)
         (Some (lit "/opt/flopoco/bin/flopoco"))))
      (lit "/opt/flopoco/bin/flopoco") eq_refl).
    discriminate.
  - apply (proj1 (proj2 (proj2
      (executable_resolution
         (Sample.world_with (lit "/usr/bin/flopoco") FileNotFoundError)
         None)))
      (lit "/usr/bin/flopoco") (or_introl eq_refl) eq_refl).
    discriminate.
  - exact (proj2 (proj2 (proj2
      (executable_resolution (Sample.world_of FileNotFoundError) None)))
      (or_introl eq_refl) (or_introl eq_refl)).
Defined.

Lemma empty_path_not_verbatim :
  _resolve_flopoco_exe
    (Sample.world_with (lit "/usr/bin/flopoco") FileNotFoundError) (Some [])
  = lit "/usr/bin/flopoco" /\
  _resolve_flopoco_exe (Sample.world_of FileNotFoundError) (Some [])
  = lit "./build/flopoco" /\
  _resolve_flopoco_exe (Sample.world_of FileNotFoundError) (Some []) <> [].
Proof. repeat split; discriminate. Qed.

Lemma Heps_optional_witness :
  (forall i, ~ occurs_at _RE_HEPS
                 (make_raw_log (Some Sample.out_metrics) None) i) /\
  process_outcome
    (Sample.world_of (Completed 0 (Some Sample.out_metrics) None)) Sample.args
  = Some (Completed 0 (Some Sample.out_metrics) None) /\
  exists r,
    result
      (run_fixiir_and_parse_metrics Sample.of_str Sample.repr
         (Sample.world_of (Completed 0 (Some Sample.out_metrics) None))
         Sample.args)
    = inr r /\ Heps r = None.
Proof.
  assert (A : forall i,
    ~ occurs_at _RE_HEPS (make_raw_log (Some Sample.out_metrics) None) i)
    by (apply search_None_occurs; reflexivity).
  split; [exact A|split; [reflexivity|]].
  destruct (@Heps_optional Sample.float Sample.of_str Sample.repr
              (Sample.world_of (Completed 0 (Some Sample.out_metrics) None))
              Sample.args (Some Sample.out_metrics) None A) as [C _].
  destruct (C eq_refl) as [_ R].
  exact (R (lit "1.0") (lit "4") eq_refl eq_refl eq_refl).
Defined.

Lemma lsbExt_signed_integer_witness :
  process_outcome
    (Sample.world_of (Completed 0 (Some Sample.out_minus3) None)) Sample.args
  = Some (Completed 0 (Some Sample.out_minus3) None) /\
  exists r,
    result
      (run_fixiir_and_parse_metrics Sample.of_str Sample.repr
         (Sample.world_of (Completed 0 (Some Sample.out_minus3) None))
         Sample.args)
    = inr r /\ lsbExt r = (-3)%Z.
Proof.
  split; [reflexivity|].
  destruct (@lsbExt_signed_integer Sample.float Sample.of_str Sample.repr
              (Sample.world_of (Completed 0 (Some Sample.out_minus3) None))
              Sample.args (Some Sample.out_minus3) None eq_refl)
    as (Ex & _ & _).
  destruct (Ex (line_H_bare (lit "1.0") ++ [NL]) [NL; NL]) as [_ R].
  - reflexivity.
  - apply no_occurrence_before; vm_compute; reflexivity.
  - reflexivity.
  - exact (R (lit "1.0") eq_refl).
Defined.

Lemma first_lsbExt_announcement_wins :
  contains (line_lsbExt (lit "-3"))
    (make_raw_log (Some Sample.out_two_lsbExt) None) /\
  process_outcome
    (Sample.world_of (Completed 0 (Some Sample.out_two_lsbExt) None))
    Sample.args
  = Some (Completed 0 (Some Sample.out_two_lsbExt) None) /\
  exists r,
    result
      (run_fixiir_and_parse_metrics Sample.of_str Sample.repr
         (Sample.world_of (Completed 0 (Some Sample.out_two_lsbExt) None))
         Sample.args)
    = inr r /\ lsbExt r = 5%Z /\ lsbExt r <> (-3)%Z.
Proof.
  split; [|split; [reflexivity|]].
  - exists (line_H_bare (lit "1.0") ++ NL :: line_lsbExt (lit "5") ++ [NL]),
      [NL; NL]; reflexivity.
  - eexists; split; [vm_compute; reflexivity|split; [reflexivity|discriminate]].
Qed.

Lemma sortie_table_witness :
  (0 <= 5 <= 255)%Z /\
  TableVerite.sortie 5 = [0; 0; 0; 0; 0; 0; 1; 0; 0; 0; 1]%Z /\
  List.length (TableVerite.sortie 5) = 11.
Proof.
  assert (R : (0 <= 5 <= 255)%Z) by lia.
  split; [exact R|split; [reflexivity|]].
  exact (proj1 (@TableVeriteFacts.sortie_table 5%Z R)).
Defined.

(** * The model on a few inputs *)

(** The command of the front end's defaults. *)
Example cmd_defaults :
  build_cmd (Sample.world_of FileNotFoundError) (lit "./build/flopoco")
    Sample.args =
  ([], inr [ lit "./build/flopoco"; lit "generateFigures=0"; lit "FixIIR";
             lit "coeffb=0x1p+0"; lit "coeffa=0x1p-1"; lit "lsbIn=-12";
             lit "lsbOut=-12"; lit "loglevel=1" ]).
Proof. reflexivity. Qed.

(** At the interpreter's default limit of 4300 digits: an lsbExt of 4300
    digits is converted, one of 4301 digits makes [int] raise; an [lsbIn] of
    4300 digits is formatted and the process is run, one of 4301 digits
    makes the f-string raise before anything is run. *)
Example digit_limit :
  (exists r,
     result
       (run_fixiir_and_parse_metrics Sample.of_str Sample.repr
          (Sample.world_of (Completed 0 (Some (Sample.out_long 4300)) None))
          Sample.args)
     = inr r) /\
  result
    (run_fixiir_and_parse_metrics Sample.of_str Sample.repr
       (Sample.world_of (Completed 0 (Some (Sample.out_long 4301)) None))
       Sample.args)
  = inl ValueError /\
  result
    (run_fixiir_and_parse_metrics Sample.of_str Sample.repr
       (Sample.world_of (TimeoutExpired (Some (Sample.out_long 4301)) None))
       Sample.args)
  = inl ValueError /\
  process_outcome (Sample.world_of (Completed 0 None None))
    (Sample.with_lsbIn (- 10 ^ 4299))
  = Some (Completed 0 None None) /\
  run_fixiir_and_parse_metrics Sample.of_str Sample.repr
    (Sample.world_of (Completed 0 None None)) (Sample.with_lsbIn (10 ^ 4300))
  = ([], inl ValueError).
Proof.
  split; [eexists; vm_compute; reflexivity|].
  split; [vm_compute; reflexivity|].
  split; [vm_compute; reflexivity|].
  split; vm_compute; reflexivity.
Qed.

(** The number is read greedily and given back where it cannot go on. *)
Example search_H_exponent :
  search _RE_H (lit "Filter worst-case peak gain:  H=-1.5e+3e4")
  = Some (lit "-1.5e+3") /\
  search _RE_H (lit "Computed filter worst-case peak gain:H=2.e")
  = Some (lit "2.") /\
  search _RE_HEPS (lit "Error amplification worst-case peak gain: Heps=.5E-")
  = Some (lit ".5") /\
  search _RE_H (lit "Filter worst-case peak gain: H=.e4") = None.
Proof. repeat split; reflexivity. Qed.

(** The phrasing is matched with its capital letter: none of the patterns
    matches inside the other's announcement. *)
Example search_phrasing_case :
  search _RE_H (lit "filter worst-case peak gain: H=1") = None /\
  search _RE_H (lit "Computed error amplification worst-case peak gain: H=1")
  = None /\
  search _RE_HEPS (lit "Computed filter worst-case peak gain: Heps=1") = None.
Proof. repeat split; reflexivity. Qed.

(** Ill-formed and truncated sequences each become one U+FFFD. *)
Example decode_ill_formed :
  Utf8.decode_N [0x41; 0xE2; 0x82; 0xAC; 0xFF; 0xE2; 0x82; 0x41; 0xF0; 0x9F;
                 0x98; 0x80; 0xE0; 0x80; 0xC3]%N
  = [0x41; 0x20AC; 0xFFFD; 0xFFFD; 0x41; 0x1F600; 0xFFFD; 0xFFFD; 0xFFFD]%N.
Proof. reflexivity. Qed.

(** The first rows of the table, and the last. *)
Example sortie_rows :
  TableVerite.sortie 0 = [0; 0; 0; 0; 0; 0; 0; 1; 0; 0; 0]%Z /\
  TableVerite.sortie 1 = [0; 0; 0; 0; 0; 0; 1; 0; 0; 0; 1]%Z /\
  TableVerite.sortie 127 = [1; 0; 0; 0; 0; 0; 0; 0; 1; 1; 1]%Z /\
  TableVerite.sortie 255 = [0; 0; 0; 0; 0; 0; 0; 0; 0; 0; 0]%Z.
Proof. repeat split; reflexivity. Qed.

(** * The truth table beyond one row *)

Module TableMoreFacts.
Import TableVerite TableVeriteFacts.
Open Scope Z_scope.

(** A check made on every element of [range n] holds for every integer
    of the range. *)
Lemma range_forallb (n : nat) (P : Z -> bool) :
  forallb P (range n) = true ->
  forall m, 0 <= m < Z.of_nat n -> P m = true.
Proof.
  intros F m Hm; rewrite forallb_forall in F; apply F.
  unfold range; apply in_map_iff; exists (Z.to_nat m); split; [lia|].
  apply in_seq; lia.
Qed.

(** [compteur] reads the eight low bits only. *)
Lemma compteur_bits (n : Z) :
  compteur n =
  map (fun i => Z.b2z (Z.testbit n i)) [7; 6; 5; 4; 3; 2; 1; 0].
Proof.
  unfold compteur; cbn [reversed_range seq map rev app].
  now rewrite !land_shiftr_1 by lia.
Qed.

Lemma compteur_mod (n : Z) : compteur (n mod 256) = compteur n.
Proof.
  rewrite !compteur_bits; cbn [map].
  change 256 with (2 ^ 8).
  now rewrite !Z.mod_pow2_bits_low by lia.
Qed.

Lemma bit3_mod (n : Z) : bit3 (n mod 8) = bit3 n.
Proof.
  rewrite !bit3_bits.
  change 8 with (2 ^ 3).
  now rewrite !Z.mod_pow2_bits_low by lia.
Qed.

Lemma sortie_while_compteur (n m : Z) (k : nat) :
  compteur n = compteur m -> sortie_while n k = sortie_while m k.
Proof.
  intros E; induction k as [|k IH]; cbn [sortie_while]; [reflexivity|].
  now rewrite E, IH.
Qed.

Lemma of_bits_compteur (n : Z) : of_bits (compteur n) = n mod 256.
Proof.
  rewrite <- compteur_mod.
  assert (R : 0 <= n mod 256 < Z.of_nat 256) by (apply Z.mod_pos_bound; lia).
  apply Z.eqb_eq.
  revert R; generalize (n mod 256).
  apply (range_forallb 256 (fun m => of_bits (compteur m) =? m)).
  vm_compute; reflexivity.
Qed.

(** X10.  The binary digits [compteur] and [bit3] return, most significant
    first, denote the argument modulo 256 and modulo 8, for every integer
    (negative ones too); and every list of eight binary digits is what
    [compteur] returns for the number in 0..255 it denotes. *)
Theorem compteur_value (n : Z) :
  of_bits (compteur n) = n mod 256 /\
  of_bits (bit3 n) = n mod 8 /\
  (forall bits,
     List.length bits = 8%nat -> Forall (fun b => b = 0 \/ b = 1) bits ->
     0 <= of_bits bits <= 255 /\ compteur (of_bits bits) = bits).
Proof.
  split; [apply of_bits_compteur|split].
  - rewrite <- bit3_mod.
    assert (R : 0 <= n mod 8 < Z.of_nat 8) by (apply Z.mod_pos_bound; lia).
    apply Z.eqb_eq.
    revert R; generalize (n mod 8).
    apply (range_forallb 8 (fun m => of_bits (bit3 m) =? m)).
    vm_compute; reflexivity.
  - intros bits L F.
    do 8 (destruct bits as [|? bits]; [discriminate L|]).
    destruct bits; [|discriminate L].
    repeat match goal with
    | H : Forall _ (_ :: _) |- _ => inversion H; subst; clear H
    | H : _ \/ _ |- _ => destruct H; subst
    end; vm_compute; intuition discriminate.
Qed.

(** X11.  [sortie] reads its argument through [compteur] only: every
    integer gives the row of its residue modulo 256, so an integer whose
    residue is 255 (such as -1) gives the all-zero row. *)
Theorem sortie_wraps (n : Z) :
  sortie n = sortie (n mod 256) /\
  (n mod 256 = 255 -> sortie n = repeat 0 11).
Proof.
  assert (E : sortie n = sortie (n mod 256))
    by (apply sortie_while_compteur; symmetry; apply compteur_mod).
  split; [exact E|].
  intros M; rewrite E, M; reflexivity.
Qed.

(** The check behind [sortie_rising_bit], made on every residue. *)
Lemma rising_check (m : Z) :
  0 <= m < 256 ->
  forallb (fun i =>
             Bool.eqb (nth i (sortie m) 0 =? 1)
                      ((nth i (compteur m) 0 =? 0)
                       && (nth i (compteur (m + 1)) 0 =? 1)))
          (seq 0 8)
  && ((m =? 255)
      || (negb (Z.testbit m (of_bits (skipn 8 (sortie m))))
          && Z.testbit (m + 1) (of_bits (skipn 8 (sortie m)))
          && (of_bits (skipn 8 (sortie m)) <=? 7)
          && (0 <=? of_bits (skipn 8 (sortie m))))) = true.
Proof.
  revert m.
  apply (range_forallb 256
    (fun m =>
       forallb (fun i =>
                  Bool.eqb (nth i (sortie m) 0 =? 1)
                           ((nth i (compteur m) 0 =? 0)
                            && (nth i (compteur (m + 1)) 0 =? 1)))
               (seq 0 8)
       && ((m =? 255)
           || (negb (Z.testbit m (of_bits (skipn 8 (sortie m))))
               && Z.testbit (m + 1) (of_bits (skipn 8 (sortie m)))
               && (of_bits (skipn 8 (sortie m)) <=? 7)
               && (0 <=? of_bits (skipn 8 (sortie m))))))).
  vm_compute; reflexivity.
Qed.

(** X12.  The first eight entries of [sortie n] mark the bit that rises when
    the counter goes from [n] to [n + 1]: entry [i] is 1 exactly when
    [compteur n] has 0 and [compteur (n + 1)] has 1 at index [i].  Unless
    [n] is 255 modulo 256, the last three entries denote the number of that
    bit: it is clear in [n] and set in [n + 1]. *)
Theorem sortie_rising_bit (n : Z) :
  (forall i, (i < 8)%nat ->
     nth i (sortie n) 0 = 1 <->
     nth i (compteur n) 0 = 0 /\ nth i (compteur (n + 1)) 0 = 1) /\
  (n mod 256 <> 255 ->
   0 <= of_bits (skipn 8 (sortie n)) <= 7 /\
   Z.testbit n (of_bits (skipn 8 (sortie n))) = false /\
   Z.testbit (n + 1) (of_bits (skipn 8 (sortie n))) = true).
Proof.
  assert (R : 0 <= n mod 256 < 256) by (apply Z.mod_pos_bound; lia).
  pose proof (rising_check R) as C.
  apply andb_true_iff in C as [C1 C2].
  assert (Es : sortie n = sortie (n mod 256))
    by (apply sortie_while_compteur; symmetry; apply compteur_mod).
  assert (Ec : compteur (n mod 256 + 1) = compteur (n + 1)).
  { rewrite <- (compteur_mod (n mod 256 + 1)), <- (compteur_mod (n + 1)).
    f_equal; rewrite Z.add_mod_idemp_l by lia; reflexivity. }
  split.
  - intros i Hi.
    rewrite forallb_forall in C1.
    specialize (C1 i); rewrite in_seq in C1.
    specialize (C1 ltac:(lia)); apply Bool.eqb_prop in C1.
    rewrite Es, <- (compteur_mod n), <- Ec.
    rewrite <- Z.eqb_eq, C1, andb_true_iff, !Z.eqb_eq; reflexivity.
  - intros N.
    destruct (Z.eqb_spec (n mod 256) 255) as [|_]; [contradiction|].
    cbn [orb] in C2; rewrite <- Es in C2.
    repeat (apply andb_true_iff in C2 as [C2 ?]).
    apply negb_true_iff in C2.
    set (j := of_bits (skipn 8 (sortie n))) in *.
    assert (Hj : 0 <= j <= 7) by lia.
    repeat split; try lia.
    + rewrite <- C2; change 256 with (2 ^ 8).
      symmetry; apply Z.mod_pow2_bits_low; lia.
    + match goal with H : Z.testbit _ j = true |- _ => rewrite <- H end.
      replace (Z.testbit (n + 1) j) with (Z.testbit ((n + 1) mod 2 ^ 8) j)
        by (apply Z.mod_pow2_bits_low; lia).
      replace (Z.testbit (n mod 256 + 1) j)
        with (Z.testbit ((n mod 256 + 1) mod 2 ^ 8) j)
        by (apply Z.mod_pow2_bits_low; lia).
      change (2 ^ 8) with 256; rewrite Z.add_mod_idemp_l by lia; reflexivity.
Qed.
End TableMoreFacts.

(** * Joining and splitting *)

Module StrFacts.
Import Str.

Lemma split_no_sep (sep : codepoint) (x : text) :
  existsb (N.eqb sep) x = false -> split sep x = [x].
Proof.
  induction x as [|c x IH]; cbn [existsb split]; [reflexivity|].
  intros [Ec Ex]%orb_false_iff.
  rewrite N.eqb_sym, Ec, (IH Ex); reflexivity.
Qed.

Lemma split_app_sep (sep : codepoint) (x rest : text) :
  existsb (N.eqb sep) x = false ->
  split sep (x ++ sep :: rest) = x :: split sep rest.
Proof.
  induction x as [|c x IH]; cbn [existsb split app].
  - intros _; now rewrite N.eqb_refl.
  - intros [Ec Ex]%orb_false_iff.
    rewrite N.eqb_sym, Ec, (IH Ex); reflexivity.
Qed.

(** Splitting a joined list gives the list back, as long as it is not empty
    and no element holds the separator. *)
Lemma split_join (sep : codepoint) (l : list text) :
  l <> [] ->
  Forall (fun x => existsb (N.eqb sep) x = false) l ->
  split sep (join [sep] l) = l.
Proof.
  induction l as [|x l IH]; [congruence|]; intros _ F.
  inversion F as [|? ? Fx Fl]; subst.
  destruct l as [|y l].
  - now apply split_no_sep.
  - change (join [sep] (x :: y :: l)) with (x ++ sep :: join [sep] (y :: l)).
    rewrite split_app_sep by assumption.
    rewrite IH; [reflexivity|discriminate|assumption].
Qed.

End StrFacts.

(** * The exported table *)

Module TableCsvFacts.
Import TableVerite Csv TableCsv.

Lemma text_eqb_eq (a b : text) : text_eqb a b = true -> a = b.
Proof. unfold text_eqb; destruct (list_eq_dec N.eq_dec a b); congruence. Qed.

(** X13.  The file [exporter_csv] writes has 257 lines, the header and one
    line for each of 0..255 in increasing order; every line has 21 fields,
    none of them quoted, and splitting it on commas gives the cells back; no
    two lines of numbers share their first eight fields; and whatever the
    file held before, it holds the table afterwards. *)
Theorem exporter_csv_lines :
  List.length rows = 257%nat /\
  (forall row,
     In row rows ->
     List.length row = 21%nat /\
     writerow row = Str.join [COMMA] (map cell_text row) ++ [CR; LF] /\
     Str.split COMMA (Str.join [COMMA] (map cell_text row))
     = map cell_text row) /\
  (forall n, (0 <= n < 256)%Z ->
     nth (S (Z.to_nat n)) rows [] = data_row n) /\
  (forall n m, (0 <= n < 256)%Z -> (0 <= m < 256)%Z ->
     firstn 8 (data_row n) = firstn 8 (data_row m) -> n = m) /\
  (forall nom fs, exporter_csv nom fs nom = Some (flat_map writerow rows)).
Proof.
  split; [reflexivity|split; [|split; [|split]]].
  - assert (C : forallb (fun row =>
        (List.length row =? 21)%nat
        && text_eqb (writerow row)
             (Str.join [COMMA] (map cell_text row) ++ [CR; LF])
        && forallb (fun x => negb (existsb (N.eqb COMMA) x))
             (map cell_text row)) rows = true)
      by (vm_compute; reflexivity).
    intros row I; rewrite forallb_forall in C.
    specialize (C row I).
    apply andb_true_iff in C as [C C3]; apply andb_true_iff in C as [C1 C2].
    split; [now apply Nat.eqb_eq|split; [now apply text_eqb_eq|]].
    apply StrFacts.split_join.
    + destruct row; [discriminate C1|discriminate].
    + apply Forall_forall; intros x Ix.
      rewrite forallb_forall in C3; apply C3 in Ix.
      now apply negb_true_iff.
  - intros n Hn; unfold rows; cbn [nth].
    rewrite nth_indep with (d' := data_row 0)
      by (rewrite length_map; unfold range; rewrite length_map, length_seq;
          lia).
    rewrite (map_nth data_row); f_equal.
    unfold range; rewrite nth_indep with (d' := Z.of_nat 0)
      by (rewrite length_map, length_seq; lia).
    rewrite (map_nth Z.of_nat), seq_nth by lia; lia.
  - intros n m Hn Hm E.
    assert (F : forall k, firstn 8 (data_row k) = ints (compteur k))
      by reflexivity.
    rewrite !F in E.
    assert (C : compteur n = compteur m).
    { revert E; unfold ints; generalize (compteur n) (compteur m).
      induction l as [|x l IH]; intros [|y l']; cbn [map];
        try discriminate; [reflexivity|].
      intros [= -> E]; now rewrite (IH _ E). }
    pose proof (TableMoreFacts.of_bits_compteur n) as Vn.
    pose proof (TableMoreFacts.of_bits_compteur m) as Vm.
    rewrite C, Vm in Vn.
    rewrite !Z.mod_small in Vn by lia; lia.
  - intros nom fs; unfold exporter_csv, text_eqb.
    destruct (list_eq_dec N.eq_dec nom nom); [reflexivity|congruence].
Qed.

End TableCsvFacts.

(** * The float grammar *)

Module FloatFacts.

Lemma number_char_digit (c : codepoint) :
  Unicode.is_digit c = true -> number_char c = true.
Proof. unfold number_char; now intros ->. Qed.

Lemma digits_number_chars (w : text) :
  forallb Unicode.is_digit w = true -> forallb number_char w = true.
Proof.
  induction w as [|c w IH]; [reflexivity|]; cbn [forallb].
  intros [Dc Dw]%andb_true_iff.
  now rewrite (number_char_digit _ Dc), IH.
Qed.

(** [\d+]: digits only, at least one. *)
Lemma lang_plus_digits (w : text) :
  lang (Plus Unicode.is_digit) w ->
  forallb number_char w = true /\ existsb Unicode.is_digit w = true.
Proof.
  intros (w1 & w2 & -> & (c & -> & Dc) & Dw); cbn in Dw |- *.
  rewrite (number_char_digit _ Dc), Dc, (digits_number_chars _ Dw).
  split; reflexivity.
Qed.

(** [[+-]?]: a sign or nothing. *)
Lemma lang_opt_sign (w : text) :
  lang (Opt (Cls sign_class)) w -> forallb number_char w = true.
Proof.
  intros [->|(c & -> & Sc)]; [reflexivity|].
  cbn; unfold number_char; rewrite Sc, orb_true_r; reflexivity.
Qed.

(** Every text of the float grammar is made of digits, signs, [e], [E] and
    dots, and holds a digit. *)
Lemma lang_float_chars (g : text) :
  lang _FLOAT_RE g ->
  forallb number_char g = true /\ existsb Unicode.is_digit g = true.
Proof.
  intros (s & r & -> & Ls & (m & e & -> & Lm & Le)).
  apply lang_opt_sign in Ls.
  assert (Hm : forallb number_char m = true /\
               existsb Unicode.is_digit m = true).
  { destruct Lm as [(d & f & -> & Ld & Lf)|(dot & d & -> & -> & Ld)].
    - apply lang_plus_digits in Ld as [Ld1 Ld2].
      rewrite forallb_app, existsb_app, Ld1, Ld2; split; [|reflexivity].
      destruct Lf as [->|(dot & f' & -> & -> & Lf)]; [reflexivity|].
      cbn in Lf; rewrite forallb_app, (digits_number_chars _ Lf).
      reflexivity.
    - apply lang_plus_digits in Ld as [Ld1 Ld2].
      rewrite forallb_app, existsb_app, Ld1, Ld2, orb_true_r.
      split; reflexivity. }
  destruct Hm as [Hm1 Hm2].
  assert (He : forallb number_char e = true).
  { destruct Le as [->|(x & r & -> & (c & -> & Ec) & (sg & d & -> & Lsg & Ld))];
      [reflexivity|].
    apply lang_opt_sign in Lsg; apply lang_plus_digits in Ld as [Ld _].
    rewrite !forallb_app, Lsg, Ld; cbn.
    unfold number_char; rewrite Ec, !orb_true_r; reflexivity. }
  rewrite !forallb_app, !existsb_app, Ls, Hm1, Hm2, He, orb_true_r.
  split; reflexivity.
Qed.

End FloatFacts.

(** * [str] and [int] on integers *)

Module StrIntFacts.
Import PyInt.

Lemma digits_value_uint (d : Decimal.uint) : forall acc,
  digits_value acc (lit (NilEmpty.string_of_uint d)) = Some (uint_value acc d).
Proof.
  induction d; intros acc; cbn [NilEmpty.string_of_uint uint_value];
    try reflexivity;
    unfold lit in *; cbn [list_ascii_of_string map digits_value];
    match goal with
    | |- context [Unicode.decimal ?c] =>
        let v := eval vm_compute in (Unicode.decimal c) in
        change (Unicode.decimal c) with v
    end; cbv iota; apply IHd.
Qed.

Lemma uint_value_rev (d : Decimal.uint) : forall acc,
  uint_value acc d =
  (acc * 10 ^ Z.of_N (DecimalPos.Unsigned.usize d)
   + Z.of_N (DecimalPos.Unsigned.of_lu (Decimal.rev d)))%Z.
Proof.
  induction d; intros acc; cbn [uint_value]; [cbn; lia|..].
  all: match goal with
       | |- context [DecimalPos.Unsigned.of_lu (Decimal.rev (?f ?x))] =>
           change (Decimal.rev (f x)) with (Decimal.revapp x (f Decimal.Nil));
           rewrite (DecimalPos.Unsigned.of_lu_revapp x (f Decimal.Nil))
       end.
  all: rewrite IHd; cbn [DecimalPos.Unsigned.of_lu DecimalPos.Unsigned.usize].
  all: rewrite N2Z.inj_succ, Z.pow_succ_r by lia.
  all: rewrite ?N2Z.inj_add, ?N2Z.inj_mul, N2Z.inj_pow; cbn [Z.of_N N.mul].
  all: lia.
Qed.

Lemma uint_value_to_uint (p : positive) :
  uint_value 0 (Pos.to_uint p) = Z.pos p.
Proof.
  rewrite uint_value_rev, <- DecimalPos.Unsigned.of_uint_alt, DecimalPos.Unsigned.of_to.
  reflexivity.
Qed.

Lemma uint_digits (d : Decimal.uint) :
  forallb Unicode.is_digit (lit (NilEmpty.string_of_uint d)) = true.
Proof.
  induction d; cbn [NilEmpty.string_of_uint]; [reflexivity|..];
    unfold lit in *; cbn [list_ascii_of_string map forallb];
    rewrite IHd; reflexivity.
Qed.

Lemma decimal_value_uint (d : Decimal.uint) :
  decimal_value (lit (NilEmpty.string_of_uint d)) = uint_value 0 d.
Proof.
  pose proof (digits_value_uint d 0) as E.
  rewrite (PyIntFacts.digits_value_fold _ 0 (uint_digits d)) in E.
  now injection E.
Qed.

Lemma to_uint_digits (p : positive) :
  is_digits (lit (NilEmpty.string_of_uint (Pos.to_uint p))) /\
  NilZero.string_of_uint (Pos.to_uint p)
  = NilEmpty.string_of_uint (Pos.to_uint p).
Proof.
  pose proof (DecimalPos.Unsigned.to_uint_nonnil p) as N.
  split; [split; [|apply uint_digits]|];
    destruct (Pos.to_uint p); try congruence; try reflexivity; discriminate.
Qed.

(** [int(str(z))] is [z]. *)
Lemma int_of_str_of_int (z : Z) : int_of_str (str_of_int z) = Some z.
Proof.
  unfold str_of_int; destruct z as [|p|p]; [reflexivity|..];
    cbn [Z.to_int NilZero.string_of_int];
    destruct (to_uint_digits p) as [D E].
  - rewrite E.
    pose proof (PyIntFacts.int_of_str_signed sign_none D) as R.
    cbn [app] in R; rewrite R.
    now rewrite decimal_value_uint, uint_value_to_uint.
  - change (lit (String "-" (NilZero.string_of_uint (Pos.to_uint p))))
      with (lit "-" ++ lit (NilZero.string_of_uint (Pos.to_uint p))).
    rewrite E.
    rewrite (PyIntFacts.int_of_str_signed sign_minus D).
    now rewrite decimal_value_uint, uint_value_to_uint.
Qed.

(** [str] of an integer has the shape the lsbExt group accepts: an optional
    minus sign and digits. *)
Lemma str_of_int_shape (z : Z) :
  exists sgn f ds,
    str_of_int z = sgn ++ ds /\ sign_prefix sgn f /\ is_digits ds.
Proof.
  unfold str_of_int; destruct z as [|p|p];
    cbn [Z.to_int NilZero.string_of_int].
  - exists [], (fun z => z), (lit "0"); repeat split;
      [constructor|discriminate].
  - destruct (to_uint_digits p) as [D E]; rewrite E.
    exists [], (fun z => z), (lit (NilEmpty.string_of_uint (Pos.to_uint p))).
    repeat split; try apply D; constructor.
  - destruct (to_uint_digits p) as [D E].
    exists (lit "-"), Z.opp,
      (lit (NilEmpty.string_of_uint (Pos.to_uint p))).
    rewrite <- E; repeat split; try (rewrite E; apply D); constructor.
Qed.
End StrIntFacts.

(** * The number of digits of an integer that was read *)

Module DigitsFacts.
Import PyInt.

Lemma decimal_lt_10 (c : codepoint) (d : N) :
  Unicode.decimal c = Some d -> (d < 10)%N.
Proof.
  unfold Unicode.decimal.
  destruct (find _ _) as [s|] eqn:F; [|discriminate].
  apply find_some in F as [_ F].
  apply andb_true_iff in F as [L U].
  apply N.leb_le in L; apply N.ltb_lt in U.
  intros [= <-]; lia.
Qed.

Lemma digit_uint_cases (d : N) (P : N -> Prop) :
  (d < 10)%N ->
  P 0%N -> P 1%N -> P 2%N -> P 3%N -> P 4%N -> P 5%N -> P 6%N -> P 7%N ->
  P 8%N -> P 9%N -> P d.
Proof.
  intros L; intros.
  do 10 (destruct d as [|d] using N.peano_ind; [assumption|]).
  lia.
Qed.

Lemma uint_of_digits_value (ds : text) : forall acc,
  forallb Unicode.is_digit ds = true ->
  uint_value acc (uint_of_digits ds) =
  fold_left (fun a c =>
               (10 * a + match Unicode.decimal c with
                         | Some d => Z.of_N d
                         | None => 0
                         end)%Z) ds acc.
Proof.
  induction ds as [|c ds IH]; intros acc D; [reflexivity|].
  cbn [forallb] in D; apply andb_true_iff in D as [Dc D].
  cbn [uint_of_digits fold_left].
  destruct (PyIntFacts.is_digit_decimal _ Dc) as [d E]; rewrite E.
  pose proof (@decimal_lt_10 _ _ E) as L.
  rewrite <- (IH _ D).
  revert L; clear; intros L.
  apply (digit_uint_cases
           (fun d => uint_value acc (digit_uint d (uint_of_digits ds))
                     = uint_value (10 * acc + Z.of_N d) (uint_of_digits ds))
           L); reflexivity.
Qed.

Lemma uint_of_digits_length (ds : text) :
  forallb Unicode.is_digit ds = true ->
  Decimal.nb_digits (uint_of_digits ds) = List.length ds.
Proof.
  induction ds as [|c ds IH]; intros D; [reflexivity|].
  cbn [forallb] in D; apply andb_true_iff in D as [Dc D].
  cbn [uint_of_digits List.length].
  destruct (PyIntFacts.is_digit_decimal _ Dc) as [d E]; rewrite E.
  pose proof (@decimal_lt_10 _ _ E) as L.
  rewrite <- (IH D).
  apply (digit_uint_cases
           (fun d => Decimal.nb_digits (digit_uint d (uint_of_digits ds))
                     = S (Decimal.nb_digits (uint_of_digits ds)))
           L); reflexivity.
Qed.

Lemma decimal_value_of_uint (ds : text) :
  forallb Unicode.is_digit ds = true ->
  decimal_value ds = Z.of_N (N.of_uint (uint_of_digits ds)).
Proof.
  intros D; unfold decimal_value.
  rewrite <- (@uint_of_digits_value ds 0 D), StrIntFacts.uint_value_rev.
  rewrite DecimalPos.Unsigned.of_uint_alt; unfold N.of_uint; lia.
Qed.

Lemma length_string_of_uint (u : Decimal.uint) :
  List.length (lit (NilEmpty.string_of_uint u)) = Decimal.nb_digits u.
Proof.
  induction u; cbn [NilEmpty.string_of_uint Decimal.nb_digits];
    [reflexivity|..]; unfold lit in *;
    cbn [list_ascii_of_string map List.length]; now rewrite IHu.
Qed.

Lemma int_digits_of_N (n : N) :
  int_digits (Z.of_N n) = Decimal.nb_digits (N.to_uint n) /\
  int_digits (- Z.of_N n) = Decimal.nb_digits (N.to_uint n).
Proof.
  destruct n as [|p]; [split; reflexivity|].
  unfold int_digits, str_of_int; cbn [Z.of_N Z.opp Z.to_int N.to_uint].
  cbn [NilZero.string_of_int].
  destruct (StrIntFacts.to_uint_digits p) as [[_ D] E].
  rewrite E; split.
  - now rewrite (@PyIntFacts.digits_of_digits _ D), length_string_of_uint.
  - change (lit (String "-" (NilEmpty.string_of_uint (Pos.to_uint p))))
      with (lit "-" ++ lit (NilEmpty.string_of_uint (Pos.to_uint p))).
    now rewrite (@PyIntFacts.digits_of_signed _ _ _ sign_minus D),
      length_string_of_uint.
Qed.

(** [str] of the integer that [int] read has no more digits than were
    read. *)
Lemma int_digits_le (sgn ds : text) (f : Z -> Z) :
  sign_prefix sgn f -> is_digits ds ->
  (int_digits (f (decimal_value ds)) <= List.length ds)%nat.
Proof.
  intros S [N D].
  rewrite (@decimal_value_of_uint _ D).
  destruct (int_digits_of_N (N.of_uint (uint_of_digits ds))) as [E1 E2].
  assert (L : (Decimal.nb_digits (N.to_uint (N.of_uint (uint_of_digits ds)))
               <= List.length ds)%nat).
  { rewrite DecimalN.Unsigned.to_of, <- (@uint_of_digits_length _ D).
    apply DecimalFacts.nb_digits_unorm.
    intros Z; apply (f_equal Decimal.nb_digits) in Z.
    rewrite (@uint_of_digits_length _ D) in Z.
    destruct ds; [congruence|discriminate]. }
  destruct S; now rewrite ?E1, ?E2.
Qed.

End DigitsFacts.

Import Re ReFacts PyIntFacts PatternFacts RunFacts.

(** * The announcements are not taken for one another *)

Module ConfusionFacts.

(** No match of the H pattern starts at a character other than [C] and
    [F]. *)
Lemma match_at_H_head (s : text) :
  match s with
  | [] => True
  | c :: _ => c <> 67%N /\ c <> 70%N
  end ->
  match_at _RE_H s = None.
Proof.
  destruct s as [|c s]; [reflexivity|]; intros [N1 N2].
  unfold match_at; cbn [_RE_H p_prefix rmatch].
  change (lit "Computed filter worst-case peak gain")
    with (67%N :: lit "omputed filter worst-case peak gain").
  change (lit "Filter worst-case peak gain")
    with (70%N :: lit "ilter worst-case peak gain").
  cbn [strip].
  destruct (N.eqb_spec 67 c); [congruence|].
  destruct (N.eqb_spec 70 c); [congruence|reflexivity].
Qed.

(** No match of the Heps pattern starts at a character other than [C] and
    [E], nor at an [E] that is not followed by [r]. *)
Lemma match_at_HEPS_head (s : text) :
  match s with
  | [] => True
  | c :: s' =>
      c <> 67%N /\
      (c = 69%N -> match s' with [] => True | d :: _ => d <> 114%N end)
  end ->
  match_at _RE_HEPS s = None.
Proof.
  destruct s as [|c s]; [reflexivity|]; intros [N1 N2].
  unfold match_at; cbn [_RE_HEPS p_prefix rmatch].
  change (lit "Computed error amplification worst-case peak gain")
    with (67%N :: lit "omputed error amplification worst-case peak gain").
  change (lit "Error amplification worst-case peak gain")
    with (69%N :: 114%N :: lit "ror amplification worst-case peak gain").
  cbn [strip].
  destruct (N.eqb_spec 67 c); [congruence|].
  destruct (N.eqb_spec 69 c) as [<-|]; [|reflexivity].
  destruct s as [|d s]; [reflexivity|].
  specialize (N2 eq_refl); cbn in N2.
  destruct (N.eqb_spec 114 d); [congruence|reflexivity].
Qed.

(** A text that is searched in two parts. *)
Lemma search_app_None (p : pattern) (pre tail : text) :
  (forall i, i < List.length pre ->
             match_at p (skipn i pre ++ tail) = None) ->
  (forall i, match_at p (skipn i tail) = None) ->
  search p (pre ++ tail) = None.
Proof.
  intros A B; apply search_None; intros i _.
  rewrite skipn_app.
  destruct (Nat.lt_ge_cases i (List.length pre)) as [L|L].
  - replace (i - List.length pre) with 0 by lia; cbn [skipn]; auto.
  - rewrite skipn_all2 by lia; cbn [app]; auto.
Qed.

Lemma skipn_Forall (A : Type) (P : A -> Prop) (l : list A) (i : nat) :
  Forall P l -> Forall P (skipn i l).
Proof.
  intros F; rewrite <- (firstn_skipn i l) in F.
  now apply Forall_app in F.
Qed.

Lemma after_phrase_not (c : codepoint) :
  after_phrase c = true -> c <> 67%N /\ c <> 70%N /\ c <> 114%N.
Proof.
  intros A; repeat split; intros ->; vm_compute in A; discriminate.
Qed.

Lemma forallb_Forall_after (t : text) :
  forallb after_phrase t = true ->
  Forall (fun c => c <> 67%N /\ c <> 70%N /\ c <> 114%N) t.
Proof.
  intros F; apply Forall_forall; intros c I.
  rewrite forallb_forall in F; now apply after_phrase_not, F.
Qed.

Lemma head_ok_H (t : text) :
  Forall (fun c => c <> 67%N /\ c <> 70%N /\ c <> 114%N) t ->
  match t with
  | [] => True
  | c :: _ => c <> 67%N /\ c <> 70%N
  end.
Proof.
  destruct t as [|c t]; intros F; [exact I|].
  destruct (Forall_inv F) as (N1 & N2 & _); auto.
Qed.

Lemma head_ok_HEPS (t : text) :
  Forall (fun c => c <> 67%N /\ c <> 70%N /\ c <> 114%N) t ->
  match t with
  | [] => True
  | c :: s' =>
      c <> 67%N /\
      (c = 69%N -> match s' with [] => True | d :: _ => d <> 114%N end)
  end.
Proof.
  destruct t as [|c t]; intros F; [exact I|].
  destruct (Forall_inv F) as (N1 & _ & _).
  split; [assumption|intros _].
  destruct t as [|d t]; [exact I|].
  destruct (Forall_inv (Forall_inv_tail F)) as (_ & _ & N3); assumption.
Qed.

Lemma tail_None_H (tail : text) (i : nat) :
  forallb after_phrase tail = true -> match_at _RE_H (skipn i tail) = None.
Proof.
  intros F; apply match_at_H_head, head_ok_H, skipn_Forall.
  now apply forallb_Forall_after.
Qed.

Lemma tail_None_HEPS (tail : text) (i : nat) :
  forallb after_phrase tail = true -> match_at _RE_HEPS (skipn i tail) = None.
Proof.
  intros F; apply match_at_HEPS_head, head_ok_HEPS, skipn_Forall.
  now apply forallb_Forall_after.
Qed.

Lemma number_after_phrase (g : text) :
  forallb number_char g = true -> forallb after_phrase g = true.
Proof.
  induction g as [|c g IH]; [reflexivity|]; cbn [forallb].
  intros [Nc Ng]%andb_true_iff; rewrite (IH Ng), andb_true_r.
  unfold after_phrase; now rewrite Nc, orb_true_r.
Qed.

Lemma space_after_phrase (ws : text) :
  forallb Unicode.is_space ws = true -> forallb after_phrase ws = true.
Proof.
  induction ws as [|c ws IH]; [reflexivity|]; cbn [forallb].
  intros [Sc Sw]%andb_true_iff; rewrite (IH Sw), andb_true_r.
  unfold after_phrase; now rewrite Sc.
Qed.

(** An Heps announcement is its phrase and characters that start no H
    match; likewise for an H announcement. *)
Lemma occurrence_HEPS_shape (w g : text) :
  occurrence _RE_HEPS w g ->
  exists phrase tail,
    w = phrase ++ tail /\
    (phrase = lit "Computed error amplification worst-case peak gain" \/
     phrase = lit "Error amplification worst-case peak gain") /\
    forallb after_phrase tail = true.
Proof.
  intros (w1 & -> & (x & r1 & -> & Lx & (y & r2 & -> & -> &
            (z & u & -> & Lz & ->))) & Lg).
  exists x, (lit ":" ++ z ++ lit "Heps=" ++ g).
  split; [now rewrite <- !app_assoc|split; [exact Lx|]].
  cbn in Lz.
  rewrite !forallb_app, (space_after_phrase _ Lz).
  rewrite (number_after_phrase _ (proj1 (FloatFacts.lang_float_chars Lg))).
  reflexivity.
Qed.

Lemma occurrence_H_shape (w g : text) :
  occurrence _RE_H w g ->
  exists phrase tail,
    w = phrase ++ tail /\
    (phrase = lit "Computed filter worst-case peak gain" \/
     phrase = lit "Filter worst-case peak gain") /\
    forallb after_phrase tail = true.
Proof.
  intros (w1 & -> & (x & r1 & -> & Lx & (y & r2 & -> & -> &
            (z & u & -> & Lz & ->))) & Lg).
  exists x, (lit ":" ++ z ++ lit "H=" ++ g).
  split; [now rewrite <- !app_assoc|split; [exact Lx|]].
  cbn in Lz.
  rewrite !forallb_app, (space_after_phrase _ Lz).
  rewrite (number_after_phrase _ (proj1 (FloatFacts.lang_float_chars Lg))).
  reflexivity.
Qed.

Lemma phrase_None_H (tail : text) (i : nat) :
  (i < 49 ->
   match_at _RE_H
     (skipn i (lit "Computed error amplification worst-case peak gain")
      ++ tail) = None) /\
  (i < 40 ->
   match_at _RE_H
     (skipn i (lit "Error amplification worst-case peak gain") ++ tail)
   = None).
Proof.
  split; intros L.
  - do 49 (destruct i as [|i]; [reflexivity|]); lia.
  - do 40 (destruct i as [|i]; [reflexivity|]); lia.
Qed.

Lemma phrase_None_HEPS (tail : text) (i : nat) :
  (i < 36 ->
   match_at _RE_HEPS
     (skipn i (lit "Computed filter worst-case peak gain") ++ tail) = None) /\
  (i < 27 ->
   match_at _RE_HEPS
     (skipn i (lit "Filter worst-case peak gain") ++ tail) = None).
Proof.
  split; intros L.
  - do 36 (destruct i as [|i]; [reflexivity|]); lia.
  - do 27 (destruct i as [|i]; [reflexivity|]); lia.
Qed.

End ConfusionFacts.

(** X6.  Neither peak gain is read from the announcement of the other: the H
    pattern matches nowhere in an Heps announcement, and the Heps pattern
    nowhere in an H announcement. *)
Theorem announcements_not_confused (w g : text) :
  (occurrence _RE_HEPS w g -> search _RE_H w = None) /\
  (occurrence _RE_H w g -> search _RE_HEPS w = None).
Proof.
  split; intros O.
  - destruct (ConfusionFacts.occurrence_HEPS_shape O)
      as (phrase & tail & -> & P & T).
    apply ConfusionFacts.search_app_None.
    + intros i L; destruct P as [-> | ->];
        apply (ConfusionFacts.phrase_None_H tail i); exact L.
    + intros i; now apply ConfusionFacts.tail_None_H.
  - destruct (ConfusionFacts.occurrence_H_shape O)
      as (phrase & tail & -> & P & T).
    apply ConfusionFacts.search_app_None.
    + intros i L; destruct P as [-> | ->];
        apply (ConfusionFacts.phrase_None_HEPS tail i); exact L.
    + intros i; now apply ConfusionFacts.tail_None_HEPS.
Qed.


(** * More about the run *)

Section RunMore.
Variable py_float : Type.
Variable float_of_str : text -> py_float.
Variable float_repr : py_float -> text.
Variable float_hex : py_float -> text.

Implicit Types (w : world py_float) (a : arguments py_float)
               (so se : option bytes).

(** X5.  The text handed to [float] is never empty or foreign to the float
    grammar: whatever the H or the Heps pattern captures is made of digits,
    signs, dots, [e] and [E], and holds at least one digit. *)
Theorem captured_number_shape (log g : text) :
  search _RE_H log = Some g \/ search _RE_HEPS log = Some g ->
  g <> [] /\ forallb number_char g = true /\
  existsb Unicode.is_digit g = true.
Proof.
  intros E.
  assert (L : lang _FLOAT_RE g).
  { destruct E as [E|E];
      apply search_Some in E as (i & _ & E & _);
      apply match_at_sound in E as (w & rest & _ & (w1 & _ & _ & L));
      exact L. }
  destruct (FloatFacts.lang_float_chars L) as [C D].
  repeat split; auto.
  intros ->; discriminate D.
Qed.



Lemma main_trace w (args : namespace) :
  trace (main float_of_str float_repr w args) =
  trace (run_fixiir_and_parse_metrics float_of_str float_repr w
           (front_end_arguments py_float args)).
Proof.
  unfold main, bind, trace, fmt_int, ret, raise.
  destruct (run_fixiir_and_parse_metrics _ _ _ _) as [t [e|r]]; cbn;
    [reflexivity|].
  destruct (str_refuses w (lsbExt r)); apply app_nil_r.
Qed.

(** What is returned was read by [int], so [str] formats it. *)
Lemma returned_lsbExt_fits w a (r : FixIIRMetrics py_float) :
  result (run_fixiir_and_parse_metrics float_of_str float_repr w a) = inr r ->
  str_refuses w (lsbExt r) = false.
Proof.
  intros Er.
  assert (G : exists log gl,
             search _RE_LSBEXT log = Some gl /\
             PyInt.int_of_str gl = Some (lsbExt r) /\
             int_refuses w gl = false).
  { destruct (process_outcome w a) as [[rc so se|so se| |name]|] eqn:O.
    - destruct (Z.eq_dec rc 0) as [->|N].
      + destruct (clean_returns_inv float_of_str float_repr w a O Er)
          as (h & gl & z & _ & EL & Ez & R & ->).
        exists (make_raw_log so se), gl; auto.
      + destruct (nonzero_trace float_of_str float_repr w a O N) as [_ E].
        rewrite E in Er; discriminate.
    - destruct (timeout_returns_inv float_of_str float_repr w a O Er)
        as (gH & gl & z & _ & EL & Ez & R & ->).
      exists (make_raw_log so se), gl; auto.
    - rewrite (run_not_found float_of_str float_repr w a O) in Er.
      discriminate.
    - rewrite (run_raised float_of_str float_repr w a O) in Er.
      discriminate.
    - rewrite process_outcome_eq in O.
      destruct (ints_fit w a) eqn:F; [discriminate|].
      rewrite (run_not_built float_of_str float_repr w a F) in Er.
      discriminate. }
  destruct G as (log & gl & EL & Ez & R).
  destruct (search_lsbExt_int _ EL) as (sgn & f & ds & -> & S & D & Ez').
  rewrite Ez in Ez'; injection Ez' as ->.
  unfold str_refuses; unfold int_refuses in R.
  rewrite (@PyIntFacts.digits_of_signed _ _ _ S (proj2 D)) in R.
  apply PyIntFacts.exceeds_limit_le with (List.length ds); [|assumption].
  exact (DigitsFacts.int_digits_le S D).
Qed.


(** X3.  Every returned result comes from a timeout or from an exit code 0,
    and can be read again from its own [raw_log]: [lsbExt] is [int] of
    group 1 of the lsbExt match on it, [Heps] is the float of the Heps match
    if there is one, and [timedOut] tells the two paths apart; after a
    timeout [H] is the float of the H match, after a clean exit it is that
    or, when there is no match, the fallback. *)
Theorem returned_result_anatomy w a (r : FixIIRMetrics py_float) :
  result (run_fixiir_and_parse_metrics float_of_str float_repr w a) = inr r ->
  exists so se gl,
    raw_log r = make_raw_log so se /\
    search _RE_LSBEXT (raw_log r) = Some gl /\
    PyInt.int_of_str gl = Some (lsbExt r) /\
    Heps r = option_map float_of_str (search _RE_HEPS (raw_log r)) /\
    ((process_outcome w a = Some (TimeoutExpired so se) /\ timedOut r = true /\
      exists gH, search _RE_H (raw_log r) = Some gH /\
                 H r = float_of_str gH)
     \/
     (process_outcome w a = Some (Completed 0 so se) /\ timedOut r = false /\
      chosen_H float_of_str (search _RE_H (raw_log r)) (fallback_H a)
      = Some (H r))).
Proof.
  intros Er.
  destruct (process_outcome w a) as [[rc so se|so se| |name]|] eqn:O.
  - destruct (Z.eq_dec rc 0) as [->|N].
    + destruct (clean_returns_inv float_of_str float_repr w a O Er)
        as (h & gl & z & Eh & EL & Ez & _ & ->).
      exists so, se, gl; cbn; repeat split; auto.
    + destruct (nonzero_trace float_of_str float_repr w a O N) as [_ E].
      rewrite E in Er; discriminate.
  - destruct (timeout_returns_inv float_of_str float_repr w a O Er)
      as (gH & gl & z & EH & EL & Ez & _ & ->).
    exists so, se, gl; cbn; repeat split; auto.
    left; repeat split; eauto.
  - rewrite (run_not_found float_of_str float_repr w a O) in Er.
    discriminate.
  - rewrite (run_raised float_of_str float_repr w a O) in Er.
    discriminate.
  - rewrite process_outcome_eq in O.
    destruct (ints_fit w a) eqn:F; [discriminate|].
    rewrite (run_not_built float_of_str float_repr w a F) in Er.
    discriminate.
Qed.

(** X4.  After a timeout the searches for H, Heps and lsbExt are made once
    each, in this order and on the log, whatever they find.  After a clean
    exit so are they, unless H is neither matched nor given as a fallback:
    then the H search is the only one made. *)
Theorem search_schedule w a so se :
  (process_outcome w a = Some (TimeoutExpired so se) ->
   searches
     (trace (run_fixiir_and_parse_metrics float_of_str float_repr w a))
   = [(MetricH, make_raw_log so se); (MetricHeps, make_raw_log so se);
      (MetricLsbExt, make_raw_log so se)]) /\
  (process_outcome w a = Some (Completed 0 so se) ->
   searches
     (trace (run_fixiir_and_parse_metrics float_of_str float_repr w a))
   = match chosen_H float_of_str (search _RE_H (make_raw_log so se))
             (fallback_H a) with
     | None => [(MetricH, make_raw_log so se)]
     | Some _ =>
         [(MetricH, make_raw_log so se); (MetricHeps, make_raw_log so se);
          (MetricLsbExt, make_raw_log so se)]
     end).
Proof.
  split; intros O.
  - now apply timeout_trace.
  - destruct (run_completed float_of_str float_repr w a O) as [-> _].
    rewrite on_completed_zero.
    now destruct (chosen_H _ _ _).
Qed.

(** X7.  Any run of blanks (spaces, tabs, line ends), or none at all, may
    stand between [Building an IIR filter faithful to] and [lsbExt=]: when
    this is the first lsbExt announcement of the log, made of an optional
    sign and digits that no digit follows, [search] returns the number, and
    every result returned after a clean exit or a timeout has its signed
    value as [lsbExt]. *)
Theorem lsbExt_blanks w a so se pre ws sgn f ds post :
  process_outcome w a = Some (Completed 0 so se) \/
  process_outcome w a = Some (TimeoutExpired so se) ->
  make_raw_log so se =
    pre ++ lit "Building an IIR filter faithful to" ++ ws ++ lit "lsbExt="
    ++ sgn ++ ds ++ post ->
  forallb Unicode.is_space ws = true ->
  sign_prefix sgn f -> is_digits ds -> ends_integer post = true ->
  (forall j, j < List.length pre ->
             ~ occurs_at _RE_LSBEXT (make_raw_log so se) j) ->
  search _RE_LSBEXT (make_raw_log so se) = Some (sgn ++ ds) /\
  forall r,
    result (run_fixiir_and_parse_metrics float_of_str float_repr w a) = inr r ->
    lsbExt r = f (decimal_value ds).
Proof.
  intros O E W S D P F.
  assert (EL : search _RE_LSBEXT (make_raw_log so se) = Some (sgn ++ ds)).
  { rewrite E in F |- *.
    apply search_after_prefix; [|assumption].
    now apply match_at_lsbExt_line with f. }
  split; [assumption|].
  intros r Er.
  assert (Z : exists gl z,
             search _RE_LSBEXT (make_raw_log so se) = Some gl /\
             PyInt.int_of_str gl = Some z /\ lsbExt r = z).
  { destruct O as [O|O].
    - destruct (clean_returns_inv float_of_str float_repr w a O Er)
        as (h & gl & z & _ & EL' & Ez & _ & ->); eauto.
    - destruct (timeout_returns_inv float_of_str float_repr w a O Er)
        as (gH & gl & z & _ & EL' & Ez & _ & ->); eauto. }
  destruct Z as (gl & z & EL' & Ez & ->).
  rewrite EL in EL'; injection EL' as <-.
  rewrite (int_of_str_signed S D) in Ez; now injection Ez.
Qed.

(** X8.  For a non-empty sequence of coefficients whose hexadecimal
    literals hold no colon, splitting the text of
    [coeffs_to_flopoco_hex_list] on its colons gives the literals back, in
    order.  For no coefficient the text is empty, and splits into one empty
    literal. *)
Theorem hex_list_round_trip (coeffs : list py_float) :
  coeffs <> [] ->
  Forall (fun x => existsb (N.eqb 58%N) (float_hex x) = false) coeffs ->
  Str.split 58%N (coeffs_to_flopoco_hex_list float_hex coeffs)
  = map float_hex coeffs /\
  coeffs_to_flopoco_hex_list float_hex [] = [] /\
  Str.split 58%N (coeffs_to_flopoco_hex_list float_hex []) = [[]].
Proof.
  intros N F; split; [|split; reflexivity].
  unfold coeffs_to_flopoco_hex_list.
  change (lit ":") with [58%N].
  apply StrFacts.split_join.
  - destruct coeffs; [congruence|discriminate].
  - now apply Forall_map.
Qed.

(** X9.  The command-line front end spawns the command of the eight fixed
    arguments and nothing more (nothing at all, should one of the integers
    of the namespace have more digits than the interpreter formats, which
    the integers that [argparse] read with [int] never have); an exception
    of the call goes through and nothing is printed; when the call returns,
    three lines are printed, [H=], [Heps=] ([None] when unset) and
    [lsbExt=], and the integer printed reads back by [int] as [lsbExt]; as no
    fallback is passed, a clean exit whose log has no H announcement fails
    with the H error. *)
Theorem front_end w (args : namespace) :
  spawns (trace (main float_of_str float_repr w args)) =
  (if ints_fit w (front_end_arguments py_float args)
   then
     [[ _resolve_flopoco_exe w (ns_flopoco_exe args);
        lit "generateFigures=" ++ str_of_int (ns_generateFigures args);
        lit "FixIIR";
        lit "coeffb=" ++ ns_coeffb args;
        lit "coeffa=" ++ ns_coeffa args;
        lit "lsbIn=" ++ str_of_int (ns_lsbIn args);
        lit "lsbOut=" ++ str_of_int (ns_lsbOut args);
        lit "loglevel=" ++ str_of_int (ns_loglevel args) ]]
   else []) /\
  (forall e,
     result (run_fixiir_and_parse_metrics float_of_str float_repr w
               (front_end_arguments py_float args)) = inl e ->
     result (main float_of_str float_repr w args) = inl e) /\
  (forall r,
     result (run_fixiir_and_parse_metrics float_of_str float_repr w
               (front_end_arguments py_float args)) = inr r ->
     result (main float_of_str float_repr w args) =
     inr [ lit "H=" ++ float_repr (H r);
           lit "Heps=" ++ match Heps r with
                          | Some x => float_repr x
                          | None => lit "None"
                          end;
           lit "lsbExt=" ++ str_of_int (lsbExt r) ] /\
     PyInt.int_of_str (str_of_int (lsbExt r)) = Some (lsbExt r)) /\
  (forall so se,
     process_outcome w (front_end_arguments py_float args)
     = Some (Completed 0 so se) ->
     search _RE_H (make_raw_log so se) = None ->
     result (main float_of_str float_repr w args) =
     inl (RuntimeError
            (lit "Could not parse H from FloPoCo log. Log:" ++ [NL]
             ++ make_raw_log so se))).
Proof.
  assert (E : forall e,
     result (run_fixiir_and_parse_metrics float_of_str float_repr w
               (front_end_arguments py_float args)) = inl e ->
     result (main float_of_str float_repr w args) = inl e).
  { unfold main, bind, result.
    destruct (run_fixiir_and_parse_metrics _ _ _ _) as [t [e'|r']];
      cbn; [intros e [= ->]; reflexivity|discriminate]. }
  split; [|split; [exact E|split]].
  - rewrite main_trace.
    destruct (run_trace float_of_str float_repr w
                (front_end_arguments py_float args))
      as [(F & rest & T & S & _)|[F T]]; rewrite F, T.
    + change (spawns (EvRun ?c ?t :: rest)) with (c :: spawns rest).
      rewrite S; reflexivity.
    + reflexivity.
  - intros r Er; split; [|apply StrIntFacts.int_of_str_of_int].
    pose proof (returned_lsbExt_fits _ _ Er) as R.
    revert Er; unfold main, bind, result, fmt_int.
    destruct (run_fixiir_and_parse_metrics _ _ _ _) as [t [e'|r']];
      cbn; [discriminate|].
    intros [= ->]; rewrite R; reflexivity.
  - intros so se O EH; apply E.
    apply clean_no_H; [assumption|].
    now rewrite EH.
Qed.
End RunMore.

(** * The further properties on concrete inputs *)

Lemma compteur_value_witness :
  List.length [1; 0; 1; 0; 0; 0; 0; 1]%Z = 8 /\
  Forall (fun b => b = 0 \/ b = 1)%Z [1; 0; 1; 0; 0; 0; 0; 1]%Z /\
  of_bits [1; 0; 1; 0; 0; 0; 0; 1]%Z = 161%Z /\
  TableVerite.compteur 161 = [1; 0; 1; 0; 0; 0; 0; 1]%Z.
Proof.
  assert (F : Forall (fun b => b = 0 \/ b = 1)%Z [1; 0; 1; 0; 0; 0; 0; 1]%Z)
    by (repeat constructor; auto).
  split; [reflexivity|split; [exact F|split; [reflexivity|]]].
  exact (proj2 (proj2 (proj2 (TableMoreFacts.compteur_value 0))
                  [1; 0; 1; 0; 0; 0; 0; 1]%Z eq_refl F)).
Defined.

Lemma sortie_wraps_witness :
  ((-1) mod 256 = 255)%Z /\
  TableVerite.sortie (-1) = repeat 0%Z 11 /\
  TableVerite.sortie 256 = TableVerite.sortie 0.
Proof.
  split; [reflexivity|split].
  - exact (proj2 (TableMoreFacts.sortie_wraps (-1)) eq_refl).
  - exact (proj1 (TableMoreFacts.sortie_wraps 256)).
Defined.

Lemma sortie_rising_bit_witness :
  (5 mod 256 <> 255)%Z /\
  of_bits (skipn 8 (TableVerite.sortie 5)) = 1%Z /\
  Z.testbit 5 1 = false /\ Z.testbit 6 1 = true /\
  (nth 6 (TableVerite.sortie 5) 0%Z = 1%Z <->
   nth 6 (TableVerite.compteur 5) 0%Z = 0%Z /\
   nth 6 (TableVerite.compteur 6) 0%Z = 1%Z).
Proof.
  assert (N : (5 mod 256 <> 255)%Z) by discriminate.
  destruct (TableMoreFacts.sortie_rising_bit 5) as [W S].
  destruct (S N) as (_ & B1 & B2).
  split; [exact N|split; [reflexivity|split; [exact B1|split; [exact B2|]]]].
  apply (W 6); repeat constructor.
Defined.

Lemma exporter_csv_lines_witness :
  In TableCsv.header TableCsv.rows /\
  Csv.writerow TableCsv.header =
    lit "E0,E1,E2,E3,E4,E5,E6,E7,|,WE0,WE1,WE2,WE3,WE4,WE5,WE6,WE7,||,Sel2,Sel1,Sel0"
    ++ [Csv.CR; Csv.LF] /\
  List.length TableCsv.header = 21 /\
  nth 6 TableCsv.rows [] = TableCsv.data_row 5.
Proof.
  assert (I : In TableCsv.header TableCsv.rows) by (left; reflexivity).
  destruct TableCsvFacts.exporter_csv_lines as (_ & R & D & _).
  destruct (R TableCsv.header I) as (L & W & _).
  split; [exact I|split; [|split; [exact L|]]].
  - rewrite W; reflexivity.
  - apply (D 5%Z); lia.
Defined.

Lemma announcements_not_confused_witness :
  occurrence _RE_HEPS
    (lit "Error amplification worst-case peak gain: Heps=1E5") (lit "1E5") /\
  search _RE_H (lit "Error amplification worst-case peak gain: Heps=1E5")
  = None.
Proof.
  assert (O : occurrence _RE_HEPS
    (lit "Error amplification worst-case peak gain: Heps=1E5") (lit "1E5")).
  { exists (lit "Error amplification worst-case peak gain: Heps=").
    split; [reflexivity|split].
    - exists (lit "Error amplification worst-case peak gain"), (lit ": Heps=").
      split; [reflexivity|split; [right; reflexivity|]].
      exists (lit ":"), (lit " Heps=");
        split; [reflexivity|split; [reflexivity|]].
      exists (lit " "), (lit "Heps="); repeat split; reflexivity.
    - exists [], (lit "1E5"); split; [reflexivity|split; [left; reflexivity|]].
      exists (lit "1"), (lit "E5"); split; [reflexivity|split].
      + left; exists (lit "1"), []; split; [reflexivity|split].
        * exists (lit "1"), []; split; [reflexivity|split; [|reflexivity]].
          exists 49%N; split; reflexivity.
        * left; reflexivity.
      + right; exists (lit "E"), (lit "5"); split; [reflexivity|split].
        * exists 69%N; split; reflexivity.
        * exists [], (lit "5"); split; [reflexivity|split; [left; reflexivity|]].
          exists (lit "5"), []; split; [reflexivity|split; [|reflexivity]].
          exists 53%N; split; reflexivity. }
  split; [exact O|].
  exact (proj1 (announcements_not_confused _ _) O).
Defined.

Lemma captured_number_shape_witness :
  search _RE_H (lit "Filter worst-case peak gain: H=-1.5e+3x")
  = Some (lit "-1.5e+3") /\
  lit "-1.5e+3" <> [] /\
  forallb number_char (lit "-1.5e+3") = true /\
  existsb Unicode.is_digit (lit "-1.5e+3") = true.
Proof.
  split; [reflexivity|].
  apply (@captured_number_shape
           (lit "Filter worst-case peak gain: H=-1.5e+3x") (lit "-1.5e+3")).
  left; reflexivity.
Defined.



Lemma returned_result_anatomy_witness :
  result
    (run_fixiir_and_parse_metrics Sample.of_str Sample.repr
       (Sample.world_of (Completed 0 (Some Sample.out_metrics) None))
       Sample.args)
  = inr SampleMore.returned /\
  exists so se gl,
    raw_log SampleMore.returned = make_raw_log so se /\
    search _RE_LSBEXT (raw_log SampleMore.returned) = Some gl /\
    PyInt.int_of_str gl = Some (lsbExt SampleMore.returned) /\
    Heps SampleMore.returned
    = option_map Sample.of_str (search _RE_HEPS (raw_log SampleMore.returned)).
Proof.
  assert (E : result
    (run_fixiir_and_parse_metrics Sample.of_str Sample.repr
       (Sample.world_of (Completed 0 (Some Sample.out_metrics) None))
       Sample.args)
  = inr SampleMore.returned) by reflexivity.
  split; [exact E|].
  destruct (@returned_result_anatomy Sample.float Sample.of_str Sample.repr
              (Sample.world_of (Completed 0 (Some Sample.out_metrics) None))
              Sample.args SampleMore.returned E)
    as (so & se & gl & A & B & C & D & _).
  exists so, se, gl; split; [exact A|split; [exact B|split; [exact C|exact D]]].
Defined.

Lemma search_schedule_witness :
  process_outcome
    (Sample.world_of (Completed 0 (Some Sample.out_bare_token) None))
    Sample.args
  = Some (Completed 0 (Some Sample.out_bare_token) None) /\
  searches
    (trace
       (run_fixiir_and_parse_metrics Sample.of_str Sample.repr
          (Sample.world_of (Completed 0 (Some Sample.out_bare_token) None))
          Sample.args))
  = [(MetricH, make_raw_log (Some Sample.out_bare_token) None);
     (MetricHeps, make_raw_log (Some Sample.out_bare_token) None);
     (MetricLsbExt, make_raw_log (Some Sample.out_bare_token) None)].
Proof.
  split; [reflexivity|].
  exact (proj2 (@search_schedule Sample.float Sample.of_str Sample.repr
                  (Sample.world_of
                     (Completed 0 (Some Sample.out_bare_token) None))
                  Sample.args (Some Sample.out_bare_token) None) eq_refl).
Defined.

Lemma lsbExt_blanks_witness :
  process_outcome
    (Sample.world_of (Completed 0 (Some SampleMore.out_blanks) None))
    Sample.args
  = Some (Completed 0 (Some SampleMore.out_blanks) None) /\
  search _RE_LSBEXT (make_raw_log (Some SampleMore.out_blanks) None)
  = Some (lit "+7") /\
  forall r,
    result
      (run_fixiir_and_parse_metrics Sample.of_str Sample.repr
         (Sample.world_of (Completed 0 (Some SampleMore.out_blanks) None))
         Sample.args) = inr r ->
    lsbExt r = 7%Z.
Proof.
  split; [reflexivity|].
  apply (@lsbExt_blanks Sample.float Sample.of_str Sample.repr
           (Sample.world_of (Completed 0 (Some SampleMore.out_blanks) None))
           Sample.args (Some SampleMore.out_blanks) None
           (line_H_bare (lit "1.0") ++ [NL]) [NL; 9%N]
           (lit "+") (fun z => z) (lit "7") [NL; NL]).
  - left; reflexivity.
  - reflexivity.
  - reflexivity.
  - constructor.
  - split; [discriminate|reflexivity].
  - reflexivity.
  - apply no_occurrence_before; vm_compute; reflexivity.
Defined.

Lemma hex_list_round_trip_witness :
  [lit "0x1.8p+0"; lit "-0x1p-1"] <> [] /\
  Forall (fun x => existsb (N.eqb 58%N) (SampleMore.hex x) = false)
    [lit "0x1.8p+0"; lit "-0x1p-1"] /\
  coeffs_to_flopoco_hex_list SampleMore.hex [lit "0x1.8p+0"; lit "-0x1p-1"]
  = lit "0x1.8p+0:-0x1p-1" /\
  Str.split 58%N (lit "0x1.8p+0:-0x1p-1") = [lit "0x1.8p+0"; lit "-0x1p-1"].
Proof.
  assert (N : [lit "0x1.8p+0"; lit "-0x1p-1"] <> []) by discriminate.
  assert (F : Forall (fun x => existsb (N.eqb 58%N) (SampleMore.hex x) = false)
                [lit "0x1.8p+0"; lit "-0x1p-1"])
    by (repeat constructor).
  split; [exact N|split; [exact F|split; [reflexivity|]]].
  exact (proj1 (@hex_list_round_trip Sample.float SampleMore.hex _ N F)).
Defined.

Lemma front_end_witness :
  result
    (run_fixiir_and_parse_metrics Sample.of_str Sample.repr
       (Sample.world_of (Completed 0 (Some Sample.out_metrics) None))
       (front_end_arguments Sample.float SampleMore.ns))
  = inr (mkFixIIRMetrics (lit "1.0") None 4
           (make_raw_log (Some Sample.out_metrics) None) false) /\
  result
    (main Sample.of_str Sample.repr
       (Sample.world_of (Completed 0 (Some Sample.out_metrics) None))
       SampleMore.ns)
  = inr [lit "H=1.0"; lit "Heps=None"; lit "lsbExt=4"].
Proof.
  assert (E : result
    (run_fixiir_and_parse_metrics Sample.of_str Sample.repr
       (Sample.world_of (Completed 0 (Some Sample.out_metrics) None))
       (front_end_arguments Sample.float SampleMore.ns))
  = inr (mkFixIIRMetrics (lit "1.0") None 4
           (make_raw_log (Some Sample.out_metrics) None) false))
    by reflexivity.
  split; [exact E|].
  destruct (@front_end Sample.float Sample.of_str Sample.repr
              (Sample.world_of (Completed 0 (Some Sample.out_metrics) None))
              SampleMore.ns) as (_ & _ & R & _).
  destruct (R _ E) as [-> _]; reflexivity.
Defined.
